(** * Pairwise narrow-phase collision callback of the FCL collision detector

    A shallow embedding of
    [moveit_core/collision_detection/src/fcl/collision_common.cpp]:
    [collisionCallback], the [StaticShape] overload of
    [createCollisionGeometry] and [fcl2contact].

    Conventions of the embedding.
    - [std::string] is [string]; [operator<] on it is [String.ltb]
      (byte-wise lexicographic, a proper prefix is smaller).
    - [std::size_t] counters are [nat]: every subtraction of the source is
      guarded by a comparison, and [contact_count] only counts elements that
      are held in memory, so no wrap-around is reachable.
    - [double] is the binary64 type [float]; the callback only copies such
      values.
    - [std::map<std::pair<std::string, std::string>, std::vector<Contact>>]
      is a [gmap (string * string) (list Contact)]; [m[k].push_back(c)]
      creates the empty vector under [k] when [k] is absent.
    - [std::set<std::string>] is a [gset string].
    - The callback mutates [*cdata] and calls into FCL and into the allowed
      collision matrix; it is written in explicit state-passing style and
      returns, next to the new [CollisionData], the sequence of calls it
      made to those two collaborators.  [ROS_INFO] diagnostics do not touch
      the state and are left out. *)

From Stdlib Require Import ZArith String Floats.PrimFloat.
From stdpp Require Import gmap strings list fin_maps.

Local Open Scope nat_scope.

(** ** Body identities *)

(** Modelled from the spec: the enumeration [BodyTypes::Type] is declared in
    a header that is not part of the sources at hand; the callback names
    [ROBOT_LINK] and [ROBOT_ATTACHED], the data model of the specification
    adds world objects. *)
Inductive BodyType := ROBOT_LINK | ROBOT_ATTACHED | WORLD_OBJECT.

Global Instance BodyType_eq_dec : EqDecision BodyType.
Proof. solve_decision. Defined.

(** The part of an attached body the callback reads: its name and the set
    [touch_links_] of link names that may touch it. *)
Record AttachedBody := {
  ab_name : string;
  touch_links_ : gset string
}.

(** Modelled from the spec: [CollisionGeometryData] (absent header) is a
    type tag together with a union [ptr] of a link, an attached body or a
    world object; the tag selects the live member, hence one constructor per
    tag.  [getID] returns the name of the live member. *)
Inductive CollisionGeometryData :=
| CGD_link (name : string)
| CGD_ab (ab : AttachedBody)
| CGD_obj (id : string).

Definition type (cd : CollisionGeometryData) : BodyType :=
  match cd with
  | CGD_link _ => ROBOT_LINK
  | CGD_ab _ => ROBOT_ATTACHED
  | CGD_obj _ => WORLD_OBJECT
  end.

Definition getID (cd : CollisionGeometryData) : string :=
  match cd with
  | CGD_link name => name
  | CGD_ab ab => ab_name ab
  | CGD_obj id => id
  end.

(** ** Contacts *)

Definition Vector3d : Type := float * float * float.

Record Contact := {
  pos : Vector3d;
  normal : Vector3d;
  depth : float;
  body_name_1 : string;
  body_type_1 : BodyType;
  body_name_2 : string;
  body_type_2 : BodyType
}.

(** ** Allowed collision matrix *)

Module AllowedCollision.
(** Modelled from the spec: the enumeration [AllowedCollision::Type] is
    declared in an absent header.  The callback tests for [ALWAYS] and
    [CONDITIONAL]; [NEVER] stands for every other enumerator. *)
Inductive Type_ := NEVER | ALWAYS | CONDITIONAL.
End AllowedCollision.

(** [boost::function<bool(Contact&)>]; [None] is the empty function object,
    which is what [if (dcf)] tests.  A decider is taken to read the contact
    it is given and not to write to it. *)
Definition DecideContactFn : Type := option (Contact → bool).

(** Modelled from the spec: the two overloads of
    [AllowedCollisionMatrix::getAllowedCollision] used by the callback.
    The first returns whether an entry is found and, if so, its type; the
    second is represented by the value its out-parameter [dcf] holds after
    the call (still empty when nothing was assigned). *)
Record AllowedCollisionMatrix := {
  getAllowedCollision_type : string → string → option AllowedCollision.Type_;
  getAllowedCollision_fn : string → string → DecideContactFn
}.

(** ** Request, result and callback data *)

Module CollisionRequest.
Record t := {
  contacts : bool;
  max_contacts : nat;
  max_contacts_per_pair : nat;
  verbose : bool
}.
End CollisionRequest.

Module CollisionResult.
Record t := {
  collision : bool;
  contact_count : nat;
  contacts : gmap (string * string) (list Contact)
}.

(** A result before any call: no collision, nothing stored. *)
Definition fresh : t :=
  {| collision := false; contact_count := 0; contacts := ∅ |}.

(** [res->collision = true] *)
Definition set_collision (res : t) : t :=
  {| collision := true;
     contact_count := contact_count res;
     contacts := contacts res |}.

(** [res->contacts[pc].push_back(c); res->contact_count++] *)
Definition push_back (pc : string * string) (c : Contact) (res : t) : t :=
  {| collision := collision res;
     contact_count := S (contact_count res);
     contacts := <[pc := default [] (contacts res !! pc) ++ [c]]> (contacts res) |}.

(** [res->contacts.find(cp) != res->contacts.end() ? res->contacts[cp].size() : 0] *)
Definition size_at (cp : string * string) (res : t) : nat :=
  match contacts res !! cp with
  | Some v => length v
  | None => 0
  end.
End CollisionResult.

Record CollisionData := {
  req_ : CollisionRequest.t;
  res_ : CollisionResult.t;
  acm_ : option AllowedCollisionMatrix;
  done_ : bool
}.

Definition with_res (cdata : CollisionData) (res : CollisionResult.t) : CollisionData :=
  {| req_ := req_ cdata; res_ := res; acm_ := acm_ cdata; done_ := done_ cdata |}.

Definition set_done (cdata : CollisionData) : CollisionData :=
  {| req_ := req_ cdata; res_ := res_ cdata; acm_ := acm_ cdata; done_ := true |}.

(** Modelled from the spec: the constructors of [CollisionResult] and
    [CollisionData] are in absent headers.  A collision check starts from a
    result with no collision and nothing stored, and with [done_] false. *)
Definition fresh_data (req : CollisionRequest.t) (acm : option AllowedCollisionMatrix)
  : CollisionData :=
  {| req_ := req; res_ := CollisionResult.fresh; acm_ := acm; done_ := false |}.

(** The key of a pair of bodies in [res->contacts]: the source builds it,
    at three places, as [id1 < id2 ? (id1, id2) : (id2, id1)]. *)
Definition pair_key (id1 id2 : string) : string * string :=
  if String.ltb id1 id2 then (id1, id2) else (id2, id1).

(** Conversion of a [std::size_t] to the [int] parameter of [fcl::collide]
    (two's complement, 32 bits). *)
Definition size_t_to_int (n : nat) : Z :=
  let z := (Z.of_nat n mod 2 ^ 32)%Z in
  if (z <? 2 ^ 31)%Z then z else (z - 2 ^ 32)%Z.

(** [std::numeric_limits<int>::max()] *)
Definition INT_MAX : Z := 2147483647.

(** ** The callback, over an arbitrary narrow phase *)

Section Callback.

(** FCL's objects are opaque to the callback, which only reaches the user
    data attached to their geometry. *)
Variable fcl_CollisionGeometry : Type.
Variable getUserData : fcl_CollisionGeometry → CollisionGeometryData.
Variable fcl_CollisionObject : Type.
Variable getCollisionGeometry : fcl_CollisionObject → fcl_CollisionGeometry.

Record fcl_Contact := {
  fc_pos : Vector3d;
  fc_normal : Vector3d;
  penetration_depth : float;
  fc_o1 : fcl_CollisionGeometry;
  fc_o2 : fcl_CollisionGeometry
}.

(** [fcl::collide(o1, o2, num_max_contacts, exhaustive, enable_contact,
    contacts)]: the narrow phase, a library function.  It is modelled by
    the vector it fills; the [int] it returns is the number of contacts,
    the length of that vector. *)
Variable collide :
  fcl_CollisionObject → fcl_CollisionObject → Z → bool → bool → list fcl_Contact.

(** Calls the callback makes to its collaborators, in program order. *)
Inductive Event :=
| Ev_getAllowedCollision_type (name1 name2 : string)
| Ev_getAllowedCollision_fn (name1 name2 : string)
| Ev_collide (o1 o2 : fcl_CollisionObject) (num_max_contacts : Z)
             (exhaustive enable_contact : bool).

Definition is_collide (e : Event) : bool :=
  match e with Ev_collide _ _ _ _ _ => true | _ => false end.

Definition fcl2contact (fc : fcl_Contact) : Contact :=
  let cgd1 := getUserData (fc_o1 fc) in
  let cgd2 := getUserData (fc_o2 fc) in
  {| pos := fc_pos fc;
     normal := fc_normal fc;
     depth := penetration_depth fc;
     body_name_1 := getID cgd1;
     body_type_1 := type cgd1;
     body_name_2 := getID cgd2;
     body_type_2 := type cgd2 |}.

(** Lines 52-76: consult the collision matrix, if any.  Yields
    [always_allow_collision] and [dcf]. *)
Definition read_acm (cdata : CollisionData) (cd1 cd2 : CollisionGeometryData)
  : bool * DecideContactFn * list Event :=
  match acm_ cdata with
  | Some acm =>
      let ev := Ev_getAllowedCollision_type (getID cd1) (getID cd2) in
      match getAllowedCollision_type acm (getID cd1) (getID cd2) with
      | Some AllowedCollision.ALWAYS => (true, None, [ev])
      | Some AllowedCollision.CONDITIONAL =>
          (false, getAllowedCollision_fn acm (getID cd1) (getID cd2),
           [ev; Ev_getAllowedCollision_fn (getID cd1) (getID cd2)])
      | Some AllowedCollision.NEVER => (false, None, [ev])
      | None => (false, None, [ev])
      end
  | None => (false, None, [])
  end.

(** Lines 78-99: a link touching an object attached to it.  Takes and
    returns [always_allow_collision]. *)
Definition touch_links (cd1 cd2 : CollisionGeometryData) (always_allow_collision : bool)
  : bool :=
  match cd1, cd2 with
  | CGD_link _, CGD_ab ab2 =>
      if bool_decide (getID cd1 ∈ touch_links_ ab2) then true
      else always_allow_collision
  | CGD_ab ab1, CGD_link _ =>
      if bool_decide (getID cd2 ∈ touch_links_ ab1) then true
      else always_allow_collision
  | _, _ => always_allow_collision
  end.

(** Lines 105-123: the value of [want_contact_count] before the narrow
    phase is called. *)
Definition want_contact_count (req : CollisionRequest.t) (res : CollisionResult.t)
    (cd1 cd2 : CollisionGeometryData) : nat :=
  if CollisionRequest.contacts req then
    if CollisionResult.contact_count res <? CollisionRequest.max_contacts req then
      let have :=
        if String.ltb (getID cd1) (getID cd2)
        then CollisionResult.size_at (getID cd1, getID cd2) res
        else CollisionResult.size_at (getID cd2, getID cd1) res in
      if have <? CollisionRequest.max_contacts_per_pair req
      then CollisionRequest.max_contacts_per_pair req - have
      else 0
    else 0
  else 0.

(** Lines 140-160: the loop over the contacts found for a pair that has a
    decider.  The state is [want_contact_count] and [*res]; the list is
    what is left of [contacts] from index [i] on. *)
Fixpoint decide_contacts (dcf : Contact → bool) (pc : string * string)
    (cs : list fcl_Contact) (want : nat) (res : CollisionResult.t)
  : nat * CollisionResult.t :=
  match cs with
  | [] => (want, res)
  | fc :: cs' =>
      let c := fcl2contact fc in
      if dcf c then decide_contacts dcf pc cs' want res
      else
        let '(want1, res1) :=
          if 0 <? want
          then (want - 1, CollisionResult.push_back pc c res)
          else (want, res) in
        let res2 := CollisionResult.set_collision res1 in
        if want1 =? 0 then (want1, res2)
        else decide_contacts dcf pc cs' want1 res2
  end.

(** Lines 189-195: store the first [num_contacts] contacts. *)
Definition store_contacts (pc : string * string) (num_contacts : nat)
    (cs : list fcl_Contact) (res : CollisionResult.t) : CollisionResult.t :=
  foldl (λ r fc, CollisionResult.push_back pc (fcl2contact fc) r) res
        (take num_contacts cs).

(** Lines 125-212: the three ways of calling the narrow phase. *)
Definition narrow_phase (o1 o2 : fcl_CollisionObject) (cd1 cd2 : CollisionGeometryData)
    (dcf : DecideContactFn) (want : nat) (res : CollisionResult.t)
  : CollisionResult.t * list Event :=
  match dcf with
  | Some f =>
      let cs := collide o1 o2 INT_MAX true true in
      let ev := [Ev_collide o1 o2 INT_MAX true true] in
      let num_contacts := length cs in
      if 0 <? num_contacts
      then (snd (decide_contacts f (pair_key (getID cd1) (getID cd2)) cs want res), ev)
      else (res, ev)
  | None =>
      if 0 <? want then
        let cs := collide o1 o2 (size_t_to_int want) false true in
        let ev := [Ev_collide o1 o2 (size_t_to_int want) false true] in
        let num_contacts := length cs in
        if 0 <? num_contacts then
          let num_contacts' := if num_contacts <=? want then num_contacts else want in
          (store_contacts (pair_key (getID cd1) (getID cd2)) num_contacts' cs
             (CollisionResult.set_collision res), ev)
        else (res, ev)
      else
        let cs := collide o1 o2 1 false false in
        let ev := [Ev_collide o1 o2 1 false false] in
        if 0 <? length cs
        then (CollisionResult.set_collision res, ev)
        else (res, ev)
  end.

(** Lines 214-221: has the whole check come to its end? *)
Definition check_done (cdata : CollisionData) : CollisionData :=
  if CollisionResult.collision (res_ cdata) then
    if negb (CollisionRequest.contacts (req_ cdata))
       || (CollisionRequest.max_contacts (req_ cdata)
           <=? CollisionResult.contact_count (res_ cdata))
    then set_done cdata
    else cdata
  else cdata.

(** What a call leaves behind: the value returned, the callback data and
    the calls made. *)
Record Outcome := {
  ret : bool;
  data : CollisionData;
  trace : list Event
}.

Definition collisionCallback (o1 o2 : fcl_CollisionObject) (cdata : CollisionData)
  : Outcome :=
  if done_ cdata then {| ret := true; data := cdata; trace := [] |}
  else
    let cd1 := getUserData (getCollisionGeometry o1) in
    let cd2 := getUserData (getCollisionGeometry o2) in
    let '(always0, dcf, ev_acm) := read_acm cdata cd1 cd2 in
    let always_allow_collision := touch_links cd1 cd2 always0 in
    if always_allow_collision
    then {| ret := false; data := cdata; trace := ev_acm |}
    else
      let want := want_contact_count (req_ cdata) (res_ cdata) cd1 cd2 in
      let '(res, ev_fcl) := narrow_phase o1 o2 cd1 cd2 dcf want (res_ cdata) in
      let cdata' := check_done (with_res cdata res) in
      {| ret := done_ cdata'; data := cdata'; trace := ev_acm ++ ev_fcl |}.

(** A run: the broad phase hands candidate pairs to the callback one after
    the other, on one [CollisionData], in any order and any number. *)
Definition run (pairs : list (fcl_CollisionObject * fcl_CollisionObject))
    (cdata : CollisionData) : CollisionData :=
  foldl (λ cd p, data (collisionCallback p.1 p.2 cd)) cdata pairs.

End Callback.

Arguments Build_fcl_Contact {_} _ _ _ _ _.
Arguments fc_pos {_} _.
Arguments fc_normal {_} _.
Arguments penetration_depth {_} _.
Arguments fc_o1 {_} _.
Arguments fc_o2 {_} _.
Arguments Ev_getAllowedCollision_type {_} _ _.
Arguments Ev_getAllowedCollision_fn {_} _ _.
Arguments Ev_collide {_} _ _ _ _ _.
Arguments is_collide {_} _.
Arguments fcl2contact {_} _ _.
Arguments read_acm {_} _ _ _.
Arguments decide_contacts {_} _ _ _ _ _ _.
Arguments store_contacts {_} _ _ _ _ _.
Arguments narrow_phase {_} _ {_} _ _ _ _ _ _ _ _.
Arguments Build_Outcome {_} _ _ _.
Arguments ret {_} _.
Arguments data {_} _.
Arguments trace {_} _.
Arguments collisionCallback {_} _ {_} _ _ _ _ _.
Arguments run {_} _ {_} _ _ _ _.

(** ** Geometry of static shapes *)

Module shapes.
(** Modelled from the spec: [shapes::StaticShapeType] and the classes
    [shapes::StaticShape] and [shapes::Plane] come from an absent header.
    [createCollisionGeometry] tests the tag against [PLANE] only;
    [OTHER_STATIC_SHAPE n] is any other enumerator, [n] its integer value.
    [a], [b], [c] and [d] are the members the function reads through its
    cast to [shapes::Plane], which it performs under the tag [PLANE]. *)
Inductive StaticShapeType := PLANE | OTHER_STATIC_SHAPE (n : Z).

Record StaticShape := {
  type : StaticShapeType;
  a : float;
  b : float;
  c : float;
  d : float
}.

(** Modelled from the spec: [shapes::ShapeType] and the class
    [shapes::Shape] with its subclasses come from the same absent header.
    [createCollisionGeometry] distinguishes [SPHERE], [BOX], [CYLINDER] and
    [MESH]; [OTHER_SHAPE n] is any other enumerator, [n] its integer value.
    A shape is an object of the subclass its tag names, hence one
    constructor per tag, each holding the members the function reads. *)
Inductive ShapeType := SPHERE | BOX | CYLINDER | MESH | OTHER_SHAPE (n : Z).

(** [shapes::Mesh]: [vertices] is an array of [double], three per vertex,
    [triangles] an array of [unsigned int], three per triangle; the two
    counts are [unsigned int]. *)
Record Mesh := {
  vertex_count : nat;
  triangle_count : nat;
  vertices : list float;
  triangles : list nat
}.

Inductive Shape :=
| Shape_Sphere (radius : float)
| Shape_Box (size : float * float * float)
| Shape_Cylinder (radius length : float)
| Shape_Mesh (mesh : Mesh)
| Shape_other (n : Z).

Definition shape_type (shape : Shape) : ShapeType :=
  match shape with
  | Shape_Sphere _ => SPHERE
  | Shape_Box _ => BOX
  | Shape_Cylinder _ _ => CYLINDER
  | Shape_Mesh _ => MESH
  | Shape_other n => OTHER_SHAPE n
  end.

(** [shape->clone()]: a copy. *)
Definition clone (shape : Shape) : Shape := shape.
End shapes.

(** The geometry objects built here: an [fcl::Plane], and whether
    [computeLocalAABB] has been called on it. *)
Record fcl_Plane := {
  plane_a : float;
  plane_b : float;
  plane_c : float;
  plane_d : float;
  local_aabb_computed : bool
}.

Definition computeLocalAABB (g : fcl_Plane) : fcl_Plane :=
  {| plane_a := plane_a g; plane_b := plane_b g; plane_c := plane_c g;
     plane_d := plane_d g; local_aabb_computed := true |}.

(** [ROS_FATAL] writes a message to the log and returns. *)
Inductive LogEntry :=
| ROS_FATAL_unsupported_shape (shape_type : Z).

(** [createCollisionGeometry(const shapes::StaticShape *shape)], lines
    226-243.  [g] is [None] for the null pointer, and so is the
    [boost::shared_ptr] built from it. *)
Definition createCollisionGeometry (shape : shapes.StaticShape)
  : option fcl_Plane * list LogEntry :=
  let '(g, log) :=
    match shapes.type shape with
    | shapes.PLANE =>
        (Some {| plane_a := shapes.a shape; plane_b := shapes.b shape;
                 plane_c := shapes.c shape; plane_d := shapes.d shape;
                 local_aabb_computed := false |}, [])
    | shapes.OTHER_STATIC_SHAPE n => (None, [ROS_FATAL_unsupported_shape n])
    end in
  let g :=
    match g with
    | Some p => Some (computeLocalAABB p)
    | None => None
    end in
  (g, log).

(** ** Geometry of shapes *)

Inductive fcl_ShapeBase :=
| fcl_Sphere (radius : float)
| fcl_Box (x y z : float)
| fcl_Cylinder (radius lz : float).

Definition fcl_Vec3f : Type := float * float * float.
Definition fcl_Triangle : Type := nat * nat * nat.

(** An [fcl::BVHModel<fcl::OBB>] is opaque; it is represented by the calls
    made on it since [new], in program order. *)
Inductive BVHModel_call :=
| generateBVHModel (shape : fcl_ShapeBase)
| beginModel
| addSubModel (points : list fcl_Vec3f) (tri_indices : list fcl_Triangle)
| endModel
| BVH_computeLocalAABB.

Definition BVHModel : Type := list BVHModel_call.

(** The index [3 * i + j] is computed in [unsigned int], 32 bits wide. *)
Definition uint_index (i : nat) (j : N) : nat :=
  N.to_nat ((3 * N.of_nat i + j) mod 2 ^ 32)%N.

(** Line 287: [fcl::Triangle(triangles[3 * i], triangles[3 * i + 1],
    triangles[3 * i + 2])]; [None] when a read falls outside the array. *)
Definition read_triangle (mesh : shapes.Mesh) (i : nat) : option fcl_Triangle :=
  p1 ← shapes.triangles mesh !! uint_index i 0;
  p2 ← shapes.triangles mesh !! uint_index i 1;
  p3 ← shapes.triangles mesh !! uint_index i 2;
  Some (p1, p2, p3).

(** Line 291: [fcl::Vec3f(vertices[3 * i], vertices[3 * i + 1],
    vertices[3 * i + 2])]. *)
Definition read_point (mesh : shapes.Mesh) (i : nat) : option fcl_Vec3f :=
  x ← shapes.vertices mesh !! uint_index i 0;
  y ← shapes.vertices mesh !! uint_index i 1;
  z ← shapes.vertices mesh !! uint_index i 2;
  Some (x, y, z).

(** Lines 285-287 and 289-291: the two loops that fill [tri_indices] and
    [points]. *)
Definition read_tri_indices (mesh : shapes.Mesh) : option (list fcl_Triangle) :=
  mapM (read_triangle mesh) (seq 0 (shapes.triangle_count mesh)).

Definition read_points (mesh : shapes.Mesh) : option (list fcl_Vec3f) :=
  mapM (read_point mesh) (seq 0 (shapes.vertex_count mesh)).

(** [createCollisionGeometry(const shapes::Shape *shape)], lines 257-305.
    The result is [None] when the function reads outside an array of the
    mesh, where the program has no defined behaviour; otherwise it is the
    handle returned, [None] for a null pointer, and what was logged. *)
Definition createCollisionGeometry_shape (shape : shapes.Shape)
  : option (option BVHModel * list LogEntry) :=
  let g : option BVHModel := Some [] in
  let call (c : list BVHModel_call) := (λ m : BVHModel, m ++ c) <$> g in
  '(g, log) ←
    match shape with
    | shapes.Shape_Sphere radius =>
        Some (call [generateBVHModel (fcl_Sphere radius)], [])
    | shapes.Shape_Box size =>
        Some (call [generateBVHModel (fcl_Box size.1.1 size.1.2 size.2)], [])
    | shapes.Shape_Cylinder radius length =>
        Some (call [generateBVHModel (fcl_Cylinder radius length)], [])
    | shapes.Shape_Mesh mesh =>
        if (0 <? shapes.vertex_count mesh) && (0 <? shapes.triangle_count mesh) then
          tri_indices ← read_tri_indices mesh;
          points ← read_points mesh;
          Some (call [beginModel; addSubModel points tri_indices; endModel], [])
        else Some (g, [])
    | shapes.Shape_other n => Some (g, [ROS_FATAL_unsupported_shape n])
    end;
  let g :=
    match g with
    | Some m => Some (m ++ [BVH_computeLocalAABB])
    | None => None
    end in
  Some (g, log).

(** [std::numeric_limits<double>::epsilon()] *)
Definition DBL_EPSILON : float := 0x1p-52%float.

(** [createCollisionGeometry(const shapes::Shape *shape, double scale,
    double padding)], lines 245-255.  [scaleAndPadd] is the method of that
    name of [shapes::Shape], which is not part of this file. *)
Definition createCollisionGeometry_scaled
    (scaleAndPadd : shapes.Shape → float → float → shapes.Shape)
    (shape : shapes.Shape) (scale padding : float)
  : option (option BVHModel * list LogEntry) :=
  if ((abs (scale - 1) <=? DBL_EPSILON) && (abs padding <=? DBL_EPSILON))%float
  then createCollisionGeometry_shape shape
  else
    let scaled_shape := scaleAndPadd (shapes.clone shape) scale padding in
    createCollisionGeometry_shape scaled_shape.

(** ** The specification's vocabulary *)

(** The contacts stored under a key, none when the key is absent. *)
Definition stored (res : CollisionResult.t) (k : string * string) : list Contact :=
  default [] (CollisionResult.contacts res !! k).

(** [canonical_pair(a, b)]: the two ids, the smaller one first. *)
Definition canonical_pair (a b : string) : string * string :=
  if String.ltb b a then (b, a) else (a, b).

(** [remaining_for_pair(lo_id, hi_id)] in the specification's words: 0 if
    the request does not want contacts or the total has reached
    [max_total_contacts], otherwise [max_contacts_per_pair] minus the number
    of contacts stored for the pair, floored at 0. *)
Definition remaining_for_pair (req : CollisionRequest.t) (res : CollisionResult.t)
    (key : string * string) : Z :=
  if negb (CollisionRequest.contacts req)
     || (CollisionRequest.max_contacts req <=? CollisionResult.contact_count res)
  then 0%Z
  else Z.max 0 (Z.of_nat (CollisionRequest.max_contacts_per_pair req)
                - Z.of_nat (length (stored res key))).

(** The policy table resolves the pair to [Always]. *)
Definition table_always (cdata : CollisionData) (cd1 cd2 : CollisionGeometryData) : bool :=
  match acm_ cdata with
  | Some acm =>
      match getAllowedCollision_type acm (getID cd1) (getID cd2) with
      | Some AllowedCollision.ALWAYS => true
      | _ => false
      end
  | None => false
  end.

(** [link] is a robot link named in the touch links of the attached object
    [obj]. *)
Definition touches (link obj : CollisionGeometryData) : bool :=
  match obj with
  | CGD_ab ab =>
      bool_decide (type link = ROBOT_LINK) && bool_decide (getID link ∈ touch_links_ ab)
  | _ => false
  end.

(** The touch-link override, in either argument order. *)
Definition touch_link_override (cd1 cd2 : CollisionGeometryData) : bool :=
  touches cd1 cd2 || touches cd2 cd1.

(** The disposition of the pair resolves to [Always]. *)
Definition resolves_to_always (cdata : CollisionData) (cd1 cd2 : CollisionGeometryData)
  : bool :=
  table_always cdata cd1 cd2 || touch_link_override cd1 cd2.

(** The termination criterion of step 6. *)
Definition run_complete (req : CollisionRequest.t) (res : CollisionResult.t) : bool :=
  CollisionResult.collision res
  && (negb (CollisionRequest.contacts req)
      || (CollisionRequest.max_contacts req <=? CollisionResult.contact_count res)).

(** What a call adds to a result: the contacts [new], in this order, at the
    end of the sequence stored under [pc], and nothing elsewhere. *)
Definition extends_at (pc : string * string) (new : list Contact)
    (res res' : CollisionResult.t) : Prop :=
  (∀ k, stored res' k = stored res k ++ (if decide (k = pc) then new else []))
  ∧ CollisionResult.contact_count res'
    = CollisionResult.contact_count res + length new.

(** The number of contacts held in [contacts], over all keys. *)
Definition total_stored (res : CollisionResult.t) : nat :=
  map_fold (λ _ v n, length v + n) 0 (CollisionResult.contacts res).

(** What a call may do to the map itself: nothing away from [pc], and at
    [pc] either nothing or leave a sequence that is not empty. *)
Definition grows_at (pc : string * string) (res res' : CollisionResult.t) : Prop :=
  (∀ k, k ≠ pc → CollisionResult.contacts res' !! k = CollisionResult.contacts res !! k)
  ∧ (CollisionResult.contacts res' !! pc = CollisionResult.contacts res !! pc
     ∨ ∃ v, CollisionResult.contacts res' !! pc = Some v ∧ v ≠ []).

(** The same callback data with another matrix, or none. *)
Definition with_acm (cdata : CollisionData) (acm : option AllowedCollisionMatrix)
  : CollisionData :=
  {| req_ := req_ cdata; res_ := res_ cdata; acm_ := acm; done_ := done_ cdata |}.

(** The decider the matrix holds for the pair: that of a conditional entry,
    and none without matrix, without entry or for an entry of another
    type. *)
Definition decider (cdata : CollisionData) (cd1 cd2 : CollisionGeometryData)
  : DecideContactFn :=
  match acm_ cdata with
  | Some acm =>
      match getAllowedCollision_type acm (getID cd1) (getID cd2) with
      | Some AllowedCollision.CONDITIONAL =>
          getAllowedCollision_fn acm (getID cd1) (getID cd2)
      | _ => None
      end
  | None => None
  end.

(** The contacts among [cs] that the decider [f] rejects, in order. *)
Definition rejected (f : Contact → bool) (cs : list Contact) : list Contact :=
  List.filter (λ c, negb (f c)) cs.

(** How the callback queries the narrow phase for a pair with decider [dcf]
    and budget [want]: the cap and the two flags. *)
Definition query_mode (dcf : DecideContactFn) (want : nat) : Z * bool * bool :=
  match dcf with
  | Some _ => (INT_MAX, true, true)
  | None => if 0 <? want then (size_t_to_int want, false, true) else (1%Z, false, false)
  end.

(** The components of a list of triples, one after the other. *)
Definition flatten3 {A : Type} (l : list (A * A * A)) : list A :=
  l ≫= λ t, [t.1.1; t.1.2; t.2].

(** ** A concrete scene

    Bodies, a narrow phase and requests on which the statements below are
    evaluated.  Geometries and objects are represented by the body data they
    carry. *)

Module Scene.

Definition Geometry : Type := CollisionGeometryData.
Definition Object : Type := CollisionGeometryData.
Definition userData (g : Geometry) : CollisionGeometryData := g.
Definition geometry (o : Object) : Geometry := o.

Definition box_a : Object := CGD_obj "box_a".
Definition box_b : Object := CGD_obj "box_b".
Definition box_c : Object := CGD_obj "box_c".
Definition link_L : Object := CGD_link "link_L".
Definition attached_A : Object :=
  CGD_ab {| ab_name := "attached_A"; touch_links_ := {["link_L"]} |}.

(** A raw contact between [o1] and [o2], labelled in that order. *)
Definition raw (o1 o2 : Object) (depth : float) : fcl_Contact Geometry :=
  {| fc_pos := (0, 0, 0)%float;
     fc_normal := (0, 0, 1)%float;
     penetration_depth := depth;
     fc_o1 := geometry o1;
     fc_o2 := geometry o2 |}.

(** A narrow phase that finds three contacts between any two objects and
    reports at most [num_max_contacts] of them. *)
Definition collide3 (o1 o2 : Object) (num_max_contacts : Z)
    (exhaustive enable_contact : bool) : list (fcl_Contact Geometry) :=
  take (Z.to_nat num_max_contacts)
       [raw o1 o2 1%float; raw o1 o2 2%float; raw o1 o2 3%float].

(** A narrow phase that finds nothing. *)
Definition collide0 (o1 o2 : Object) (num_max_contacts : Z)
    (exhaustive enable_contact : bool) : list (fcl_Contact Geometry) := [].

Definition callback3 := collisionCallback userData geometry collide3.
Definition run3 := run userData geometry collide3.

Definition request (contacts : bool) (max_contacts max_contacts_per_pair : nat)
  : CollisionRequest.t :=
  {| CollisionRequest.contacts := contacts;
     CollisionRequest.max_contacts := max_contacts;
     CollisionRequest.max_contacts_per_pair := max_contacts_per_pair;
     CollisionRequest.verbose := false |}.

(** A matrix with the single entry [(n1, n2) ↦ ty], [fn] being its decider. *)
Definition matrix (n1 n2 : string) (ty : AllowedCollision.Type_)
    (fn : DecideContactFn) : AllowedCollisionMatrix :=
  {| getAllowedCollision_type := λ x y,
       if bool_decide (x = n1 ∧ y = n2) then Some ty else None;
     getAllowedCollision_fn := λ x y,
       if bool_decide (x = n1 ∧ y = n2) then fn else None |}.

(** A decider that accepts every contact, and one that rejects every
    contact. *)
Definition accept_all : Contact → bool := λ _, true.
Definition reject_all : Contact → bool := λ _, false.

(** Contacts wanted, at most 5 in all and 10 for a pair; no matrix. *)
Definition start_5_10 : CollisionData := fresh_data (request true 5 10) None.

(** Contacts not wanted; no matrix. *)
Definition start_no_contacts : CollisionData := fresh_data (request false 0 0) None.

(** Three overlapping pairs under [start_5_10]. *)
Definition three_pairs : list (Object * Object) :=
  [(box_a, box_b); (box_a, box_c); (box_b, box_c)].

Definition after_three_pairs : CollisionData := run3 three_pairs start_5_10.

(** The link and the object attached to it have a conditional entry whose
    decider rejects every contact. *)
Definition start_conditional_touch : CollisionData :=
  fresh_data (request true 5 10)
    (Some (matrix "link_L" "attached_A" AllowedCollision.CONDITIONAL (Some reject_all))).

(** The two boxes have a conditional entry whose decider accepts every
    contact. *)
Definition accepting_matrix : AllowedCollisionMatrix :=
  matrix "box_a" "box_b" AllowedCollision.CONDITIONAL (Some accept_all).

Definition start_conditional_accept : CollisionData :=
  fresh_data (request true 5 10) (Some accepting_matrix).

(** The names a contact carries. *)
Definition names (c : Contact) : string * string := (body_name_1 c, body_name_2 c).

(** A static shape of a type other than [PLANE]. *)
Definition unsupported_shape : shapes.StaticShape :=
  {| shapes.type := shapes.OTHER_STATIC_SHAPE 0;
     shapes.a := 0; shapes.b := 0; shapes.c := 0; shapes.d := 0 |}.

End Scene.

(** ** Some shapes *)

Module Samples.

(** One triangle. *)
Definition triangle_mesh : shapes.Mesh :=
  {| shapes.vertex_count := 3;
     shapes.triangle_count := 1;
     shapes.vertices := [0; 0; 0; 1; 0; 0; 0; 1; 0]%float;
     shapes.triangles := [0; 1; 2] |}.

(** A mesh without triangles. *)
Definition empty_mesh : shapes.Mesh :=
  {| shapes.vertex_count := 0;
     shapes.triangle_count := 0;
     shapes.vertices := [];
     shapes.triangles := [] |}.

(** Scaling that grows a sphere and leaves other shapes alone. *)
Definition grow_sphere (shape : shapes.Shape) (scale padding : float) : shapes.Shape :=
  match shape with
  | shapes.Shape_Sphere r => shapes.Shape_Sphere (r * scale + padding)%float
  | _ => shape
  end.

Definition plane_z : shapes.StaticShape :=
  {| shapes.type := shapes.PLANE;
     shapes.a := 0; shapes.b := 0; shapes.c := 1; shapes.d := 0 |}.

(** The two boxes have a conditional entry whose decider rejects every
    contact; at most 2 contacts for a pair. *)
Definition start_conditional_reject : CollisionData :=
  fresh_data (Scene.request true 5 2)
    (Some (Scene.matrix "box_a" "box_b" AllowedCollision.CONDITIONAL
             (Some Scene.reject_all))).

(** The two boxes have a conditional entry whose decider is empty. *)
Definition start_conditional_empty : CollisionData :=
  fresh_data (Scene.request true 5 10)
    (Some (Scene.matrix "box_a" "box_b" AllowedCollision.CONDITIONAL None)).

Definition callback0 := collisionCallback Scene.userData Scene.geometry Scene.collide0.
Definition run0 := run Scene.userData Scene.geometry Scene.collide0.

End Samples.

(** * Properties *)

(** ** Keys *)

Lemma ltb_irrefl (s : string) : String.ltb s s = false.
Proof.
  unfold String.ltb.
  destruct (String.compare s s) eqn:E; try reflexivity.
  pose proof (String.compare_antisym s s) as A. rewrite E in A. discriminate.
Qed.

Lemma ltb_total (s1 s2 : string) :
  String.ltb s1 s2 = false → s1 ≠ s2 → String.ltb s2 s1 = true.
Proof.
  unfold String.ltb. intros H Hne.
  rewrite String.compare_antisym.
  destruct (String.compare s1 s2) eqn:E; simpl; try reflexivity; try discriminate.
  apply String.compare_eq_iff in E. contradiction.
Qed.

Lemma ltb_asym (s1 s2 : string) :
  String.ltb s1 s2 = true → String.ltb s2 s1 = false.
Proof.
  unfold String.ltb. rewrite (String.compare_antisym s1 s2).
  destruct (String.compare s2 s1); simpl; congruence.
Qed.

Lemma pair_key_canonical (id1 id2 : string) :
  pair_key id1 id2 = canonical_pair id1 id2.
Proof.
  unfold pair_key, canonical_pair.
  destruct (String.ltb id1 id2) eqn:E12.
  - by rewrite (ltb_asym _ _ E12).
  - destruct (decide (id1 = id2)) as [->|Hne].
    + by rewrite ltb_irrefl.
    + by rewrite (ltb_total _ _ E12 Hne).
Qed.

Lemma pair_key_ordered (id1 id2 : string) :
  id1 ≠ id2 → String.ltb (pair_key id1 id2).1 (pair_key id1 id2).2 = true.
Proof.
  intros Hne. unfold pair_key.
  destruct (String.ltb id1 id2) eqn:E; simpl; [done|].
  by apply ltb_total.
Qed.

Lemma pair_key_self (id : string) : pair_key id id = (id, id).
Proof. unfold pair_key. by rewrite ltb_irrefl. Qed.

(** ** Bookkeeping of the result *)

Lemma size_at_stored (k : string * string) (res : CollisionResult.t) :
  CollisionResult.size_at k res = length (stored res k).
Proof.
  unfold CollisionResult.size_at, stored.
  by destruct (CollisionResult.contacts res !! k).
Qed.

Lemma stored_push_back (pc k : string * string) (c : Contact) (res : CollisionResult.t) :
  stored (CollisionResult.push_back pc c res) k
  = stored res k ++ (if decide (k = pc) then [c] else []).
Proof.
  unfold stored, CollisionResult.push_back; simpl.
  destruct (decide (k = pc)) as [->|Hne].
  - by rewrite lookup_insert_eq.
  - rewrite lookup_insert_ne; [|done]. by rewrite app_nil_r.
Qed.

Lemma extends_at_refl (pc : string * string) (res : CollisionResult.t) :
  extends_at pc [] res res.
Proof.
  split; [|simpl; lia].
  intros k. destruct (decide (k = pc)); by rewrite app_nil_r.
Qed.

Lemma extends_at_set_collision (pc : string * string) (new : list Contact)
    (res res' : CollisionResult.t) :
  extends_at pc new res res' →
  extends_at pc new res (CollisionResult.set_collision res').
Proof. intros [H1 H2]. split; [exact H1 | exact H2]. Qed.

Lemma extends_at_push_back (pc : string * string) (new : list Contact) (c : Contact)
    (res res' : CollisionResult.t) :
  extends_at pc new res res' →
  extends_at pc (new ++ [c]) res (CollisionResult.push_back pc c res').
Proof.
  intros [H1 H2]. split.
  - intros k. rewrite stored_push_back, H1.
    destruct (decide (k = pc)); simpl; by rewrite <- ?app_assoc.
  - simpl. rewrite H2, length_app. simpl. lia.
Qed.

Lemma extends_at_trans (pc : string * string) (new1 new2 : list Contact)
    (res1 res2 res3 : CollisionResult.t) :
  extends_at pc new1 res1 res2 → extends_at pc new2 res2 res3 →
  extends_at pc (new1 ++ new2) res1 res3.
Proof.
  intros [A1 A2] [B1 B2]. split.
  - intros k. rewrite B1, A1.
    destruct (decide (k = pc)); by rewrite <- ?app_assoc.
  - rewrite B2, A2, length_app. lia.
Qed.

Section Properties.

Context {Geometry Object : Type}.
Context (getUserData : Geometry → CollisionGeometryData).
Context (getCollisionGeometry : Object → Geometry).
Context (collide : Object → Object → Z → bool → bool → list (fcl_Contact Geometry)).

Local Abbreviation callback := (collisionCallback getUserData getCollisionGeometry collide).
Local Abbreviation body o := (getUserData (getCollisionGeometry o)).
Local Abbreviation key o1 o2 := (pair_key (getID (body o1)) (getID (body o2))).

(** A contact that is the conversion of one of the raw contacts [cs]. *)
Local Abbreviation converted_from cs :=
  (λ c : Contact, ∃ fc, fc ∈ cs ∧ c = fcl2contact getUserData fc).

(** ** The loops *)

Lemma decide_contacts_accepted (f : Contact → bool) (pc : string * string)
    (cs : list (fcl_Contact Geometry)) (want : nat) (res : CollisionResult.t) :
  (∀ fc, fc ∈ cs → f (fcl2contact getUserData fc) = true) →
  decide_contacts getUserData f pc cs want res = (want, res).
Proof.
  induction cs as [|fc cs IH]; intros Hall; simpl; [done|].
  rewrite (Hall fc) by apply list_elem_of_here.
  apply IH. intros fc' Hin. apply Hall. by apply list_elem_of_further.
Qed.

Lemma decide_contacts_extends (f : Contact → bool) (pc : string * string)
    (cs : list (fcl_Contact Geometry)) (want : nat) (res : CollisionResult.t) :
  ∃ new,
    extends_at pc new res (decide_contacts getUserData f pc cs want res).2
    ∧ length new ≤ want
    ∧ Forall (converted_from cs) new.
Proof.
  revert want res. induction cs as [|fc cs IH]; intros want res; simpl.
  { exists []. split; [apply extends_at_refl|]. split; [simpl; lia|constructor]. }
  destruct (f (fcl2contact getUserData fc)) eqn:Ef.
  { destruct (IH want res) as (new & E & L & F).
    exists new. split; [exact E|]. split; [exact L|].
    eapply List.Forall_impl; [|exact F].
    intros c (fc' & Hin & ->). exists fc'. split; [by apply list_elem_of_further|done]. }
  destruct want as [|want].
  { simpl. exists []. split; [|split; [simpl; lia|constructor]].
    apply extends_at_set_collision, extends_at_refl. }
  replace (0 <? S want) with true by (symmetry; apply Nat.ltb_lt; lia).
  replace (S want - 1) with want by lia.
  pose proof (extends_at_set_collision _ _ _ _
                (extends_at_push_back pc [] (fcl2contact getUserData fc) res res
                   (extends_at_refl pc res))) as Hone.
  simpl in Hone.
  destruct (want =? 0) eqn:Ew.
  { simpl. exists [fcl2contact getUserData fc].
    split; [exact Hone|]. split; [simpl; lia|].
    constructor; [|constructor]. exists fc. split; [apply list_elem_of_here|done]. }
  destruct (IH want (CollisionResult.set_collision
                       (CollisionResult.push_back pc (fcl2contact getUserData fc) res)))
    as (new & E & L & F).
  exists ([fcl2contact getUserData fc] ++ new).
  split; [eapply extends_at_trans; [exact Hone|exact E]|].
  split; [simpl; lia|].
  constructor.
  - exists fc. split; [apply list_elem_of_here|done].
  - eapply List.Forall_impl; [|exact F].
    intros c (fc' & Hin & ->). exists fc'. split; [by apply list_elem_of_further|done].
Qed.

Lemma store_contacts_extends (pc : string * string) (n : nat)
    (cs : list (fcl_Contact Geometry)) (res : CollisionResult.t) :
  extends_at pc (fcl2contact getUserData <$> take n cs) res
             (store_contacts getUserData pc n cs res).
Proof.
  unfold store_contacts.
  generalize (take n cs) as l. intros l.
  assert (∀ new r, extends_at pc new res r →
            extends_at pc (new ++ (fcl2contact getUserData <$> l)) res
              (foldl (λ r fc, CollisionResult.push_back pc (fcl2contact getUserData fc) r) r l))
    as Hgen.
  { induction l as [|fc l IH]; intros new r Hr; simpl.
    - by rewrite app_nil_r.
    - rewrite (cons_middle _ new). rewrite app_assoc. apply IH.
      by apply extends_at_push_back. }
  apply (Hgen [] res), extends_at_refl.
Qed.

(** ** The contact budget of a pair *)

Lemma want_contact_count_le (req : CollisionRequest.t) (res : CollisionResult.t)
    (cd1 cd2 : CollisionGeometryData) :
  want_contact_count req res cd1 cd2
  ≤ CollisionRequest.max_contacts_per_pair req
    - length (stored res (pair_key (getID cd1) (getID cd2))).
Proof.
  unfold want_contact_count, pair_key.
  destruct (CollisionRequest.contacts req); [|lia].
  destruct (_ <? CollisionRequest.max_contacts req); [|lia].
  destruct (String.ltb (getID cd1) (getID cd2)); rewrite size_at_stored;
    destruct (_ <? CollisionRequest.max_contacts_per_pair req); lia.
Qed.

Lemma want_contact_count_pos (req : CollisionRequest.t) (res : CollisionResult.t)
    (cd1 cd2 : CollisionGeometryData) :
  0 < want_contact_count req res cd1 cd2 →
  CollisionRequest.contacts req = true
  ∧ CollisionResult.contact_count res < CollisionRequest.max_contacts req.
Proof.
  unfold want_contact_count.
  destruct (CollisionRequest.contacts req); [|lia].
  destruct (_ <? CollisionRequest.max_contacts req) eqn:E; [|lia].
  apply Nat.ltb_lt in E. auto.
Qed.

(** ** The narrow phase *)

Lemma narrow_phase_extends (o1 o2 : Object) (cd1 cd2 : CollisionGeometryData)
    (dcf : DecideContactFn) (want : nat) (res : CollisionResult.t) :
  ∃ new cap ex en,
    (narrow_phase getUserData collide o1 o2 cd1 cd2 dcf want res).2
    = [Ev_collide o1 o2 cap ex en]
    ∧ extends_at (pair_key (getID cd1) (getID cd2)) new res
        (narrow_phase getUserData collide o1 o2 cd1 cd2 dcf want res).1
    ∧ length new ≤ want
    ∧ Forall (converted_from (collide o1 o2 cap ex en)) new.
Proof.
  unfold narrow_phase. destruct dcf as [f|].
  - destruct (0 <? length (collide o1 o2 INT_MAX true true)).
    + destruct (decide_contacts_extends f (pair_key (getID cd1) (getID cd2))
                  (collide o1 o2 INT_MAX true true) want res) as (new & E & L & F).
      exists new, INT_MAX, true, true. simpl. auto.
    + exists [], INT_MAX, true, true. simpl.
      split; [done|]. split; [apply extends_at_refl|]. split; [lia|constructor].
  - destruct (0 <? want) eqn:Ew.
    + set (cs := collide o1 o2 (size_t_to_int want) false true).
      destruct (0 <? length cs).
      * exists (fcl2contact getUserData
                  <$> take (if length cs <=? want then length cs else want) cs),
          (size_t_to_int want), false, true. simpl.
        split; [done|].
        split.
        { pose proof (store_contacts_extends (pair_key (getID cd1) (getID cd2))
                        (if length cs <=? want then length cs else want) cs
                        (CollisionResult.set_collision res)) as [H1 H2].
          split; [exact H1 | exact H2]. }
        split.
        { rewrite length_fmap, length_take.
          destruct (length cs <=? want) eqn:El; [apply Nat.leb_le in El|]; lia. }
        apply Forall_fmap, Forall_forall. intros fc Hin. simpl.
        exists fc. split; [|done]. eapply subseteq_take, Hin.
      * exists [], (size_t_to_int want), false, true. simpl.
        split; [done|]. split; [apply extends_at_refl|]. split; [lia|constructor].
    + exists [], 1%Z, false, false.
      destruct (0 <? length (collide o1 o2 1 false false)); simpl;
        (split; [done|]; split; [|split; [lia|constructor]]).
      * apply extends_at_set_collision, extends_at_refl.
      * apply extends_at_refl.
Qed.

(** ** The shape of a call *)

Lemma read_acm_always (cdata : CollisionData) (cd1 cd2 : CollisionGeometryData) :
  (read_acm (fcl_CollisionObject := Object) cdata cd1 cd2).1.1
  = table_always cdata cd1 cd2.
Proof.
  unfold read_acm, table_always.
  destruct (acm_ cdata) as [acm|]; [|done].
  by destruct (getAllowedCollision_type acm (getID cd1) (getID cd2)) as [[]|].
Qed.

Lemma read_acm_no_collide (cdata : CollisionData) (cd1 cd2 : CollisionGeometryData) :
  List.filter is_collide (read_acm (fcl_CollisionObject := Object) cdata cd1 cd2).2 = [].
Proof.
  unfold read_acm.
  destruct (acm_ cdata) as [acm|]; [|done].
  by destruct (getAllowedCollision_type acm (getID cd1) (getID cd2)) as [[]|].
Qed.

Lemma read_acm_conditional (cdata : CollisionData) (cd1 cd2 : CollisionGeometryData)
    (acm : AllowedCollisionMatrix) :
  acm_ cdata = Some acm →
  getAllowedCollision_type acm (getID cd1) (getID cd2) = Some AllowedCollision.CONDITIONAL →
  (read_acm (fcl_CollisionObject := Object) cdata cd1 cd2).1.2
  = getAllowedCollision_fn acm (getID cd1) (getID cd2).
Proof. intros Ha Ht. unfold read_acm. by rewrite Ha, Ht. Qed.

Lemma touch_links_override (cd1 cd2 : CollisionGeometryData) (always : bool) :
  touch_links cd1 cd2 always = always || touch_link_override cd1 cd2.
Proof.
  unfold touch_links, touch_link_override, touches.
  destruct cd1 as [n1|ab1|i1], cd2 as [n2|ab2|i2]; simpl;
    rewrite ?orb_false_r; try done.
  - by destruct (bool_decide (n1 ∈ touch_links_ ab2)), always.
  - by destruct (bool_decide (n2 ∈ touch_links_ ab1)), always.
Qed.

Lemma always_allow_resolves (cdata : CollisionData) (cd1 cd2 : CollisionGeometryData) :
  touch_links cd1 cd2 (read_acm (fcl_CollisionObject := Object) cdata cd1 cd2).1.1
  = resolves_to_always cdata cd1 cd2.
Proof. by rewrite touch_links_override, read_acm_always. Qed.

Lemma callback_done (o1 o2 : Object) (cdata : CollisionData) :
  done_ cdata = true →
  callback o1 o2 cdata = {| ret := true; data := cdata; trace := [] |}.
Proof. intros Hd. unfold collisionCallback. by rewrite Hd. Qed.

Lemma callback_always (o1 o2 : Object) (cdata : CollisionData) :
  done_ cdata = false →
  resolves_to_always cdata (body o1) (body o2) = true →
  callback o1 o2 cdata
  = {| ret := false; data := cdata;
       trace := (read_acm cdata (body o1) (body o2)).2 |}.
Proof.
  intros Hd Ha. unfold collisionCallback. rewrite Hd.
  rewrite <- (always_allow_resolves cdata) in Ha.
  destruct (read_acm cdata (body o1) (body o2)) as [[always0 dcf] ev].
  simpl in Ha. by rewrite Ha.
Qed.

Lemma callback_checked (o1 o2 : Object) (cdata : CollisionData) :
  done_ cdata = false →
  resolves_to_always cdata (body o1) (body o2) = false →
  let acm := read_acm cdata (body o1) (body o2) in
  let np := narrow_phase getUserData collide o1 o2 (body o1) (body o2) acm.1.2
              (want_contact_count (req_ cdata) (res_ cdata) (body o1) (body o2))
              (res_ cdata) in
  callback o1 o2 cdata
  = {| ret := done_ (check_done (with_res cdata np.1));
       data := check_done (with_res cdata np.1);
       trace := acm.2 ++ np.2 |}.
Proof.
  intros Hd Ha. unfold collisionCallback. rewrite Hd.
  rewrite <- (always_allow_resolves cdata) in Ha.
  destruct (read_acm cdata (body o1) (body o2)) as [[always0 dcf] ev].
  simpl in Ha. rewrite Ha. simpl.
  by destruct (narrow_phase _ _ _ _ _ _ _ _ _).
Qed.

Lemma check_done_frame (cdata : CollisionData) :
  req_ (check_done cdata) = req_ cdata
  ∧ res_ (check_done cdata) = res_ cdata
  ∧ acm_ (check_done cdata) = acm_ cdata.
Proof.
  unfold check_done.
  destruct (CollisionResult.collision _); [|done].
  by destruct (_ || _).
Qed.

Lemma check_done_flag (cdata : CollisionData) :
  done_ (check_done cdata)
  = if run_complete (req_ cdata) (res_ cdata) then true else done_ cdata.
Proof.
  unfold check_done, run_complete.
  destruct (CollisionResult.collision _); [|done].
  by destruct (_ || _).
Qed.

(** Every call, whatever its path, keeps the request and the matrix, and
    adds to the result at most [want_contact_count] contacts, all of them
    conversions of raw contacts of this pair and all under its key. *)
Lemma callback_step (o1 o2 : Object) (cdata : CollisionData) :
  ∃ new,
    req_ (data (callback o1 o2 cdata)) = req_ cdata
    ∧ acm_ (data (callback o1 o2 cdata)) = acm_ cdata
    ∧ extends_at (key o1 o2) new (res_ cdata) (res_ (data (callback o1 o2 cdata)))
    ∧ length new
      ≤ want_contact_count (req_ cdata) (res_ cdata) (body o1) (body o2)
    ∧ Forall (λ c, ∃ cap ex en, converted_from (collide o1 o2 cap ex en) c) new.
Proof.
  destruct (done_ cdata) eqn:Hd.
  { rewrite callback_done by done. simpl. exists [].
    split; [done|]. split; [done|]. split; [apply extends_at_refl|].
    split; [simpl; lia|constructor]. }
  destruct (resolves_to_always cdata (body o1) (body o2)) eqn:Ha.
  { rewrite callback_always by done. simpl. exists [].
    split; [done|]. split; [done|]. split; [apply extends_at_refl|].
    split; [simpl; lia|constructor]. }
  rewrite callback_checked by done. simpl.
  destruct (check_done_frame (with_res cdata
     (narrow_phase getUserData collide o1 o2 (body o1) (body o2)
        (read_acm (fcl_CollisionObject := Object) cdata (body o1) (body o2)).1.2
        (want_contact_count (req_ cdata) (res_ cdata) (body o1) (body o2))
        (res_ cdata)).1)) as (Hreq & Hres & Hacm).
  rewrite Hreq, Hres, Hacm. simpl.
  destruct (narrow_phase_extends o1 o2 (body o1) (body o2)
              (read_acm (fcl_CollisionObject := Object) cdata (body o1) (body o2)).1.2
              (want_contact_count (req_ cdata) (res_ cdata) (body o1) (body o2))
              (res_ cdata)) as (new & cap & ex & en & _ & E & L & F).
  exists new. split; [done|]. split; [done|]. split; [exact E|]. split; [exact L|].
  eapply List.Forall_impl; [|exact F]. intros c Hc. by exists cap, ex, en.
Qed.

(** ** Invariants of a run *)

Lemma step_per_pair (o1 o2 : Object) (cdata : CollisionData) :
  (∀ k, length (stored (res_ cdata) k)
        ≤ CollisionRequest.max_contacts_per_pair (req_ cdata)) →
  ∀ k, length (stored (res_ (data (callback o1 o2 cdata))) k)
       ≤ CollisionRequest.max_contacts_per_pair (req_ cdata).
Proof.
  intros Hinv k.
  destruct (callback_step o1 o2 cdata) as (new & _ & _ & [Hst _] & Hlen & _).
  pose proof (want_contact_count_le (req_ cdata) (res_ cdata) (body o1) (body o2)) as Hw.
  rewrite Hst, length_app.
  destruct (decide (k = key o1 o2)) as [->|Hne].
  - specialize (Hinv (key o1 o2)). lia.
  - specialize (Hinv k). simpl. lia.
Qed.

Lemma step_total (o1 o2 : Object) (cdata : CollisionData) :
  CollisionResult.contact_count (res_ cdata)
  ≤ CollisionRequest.max_contacts (req_ cdata)
    + (CollisionRequest.max_contacts_per_pair (req_ cdata) - 1) →
  CollisionResult.contact_count (res_ (data (callback o1 o2 cdata)))
  ≤ CollisionRequest.max_contacts (req_ cdata)
    + (CollisionRequest.max_contacts_per_pair (req_ cdata) - 1).
Proof.
  intros Hinv.
  destruct (callback_step o1 o2 cdata) as (new & _ & _ & [_ Hcnt] & Hlen & _).
  pose proof (want_contact_count_le (req_ cdata) (res_ cdata) (body o1) (body o2)) as Hw.
  rewrite Hcnt.
  destruct (decide (length new = 0)) as [->|Hpos]; [lia|].
  destruct (want_contact_count_pos (req_ cdata) (res_ cdata) (body o1) (body o2))
    as [_ Hlt]; lia.
Qed.

Lemma step_done_complete (o1 o2 : Object) (cdata : CollisionData) :
  (done_ cdata = true → run_complete (req_ cdata) (res_ cdata) = true) →
  done_ (data (callback o1 o2 cdata)) = true →
  run_complete (req_ cdata) (res_ (data (callback o1 o2 cdata))) = true.
Proof.
  intros Hinv.
  destruct (done_ cdata) eqn:Hd.
  { rewrite callback_done by done. simpl. auto. }
  destruct (resolves_to_always cdata (body o1) (body o2)) eqn:Ha.
  { rewrite callback_always by done. simpl. congruence. }
  rewrite callback_checked by done. simpl.
  rewrite check_done_flag.
  match goal with |- context [check_done ?c] =>
    destruct (check_done_frame c) as (_ & -> & _) end.
  simpl. rewrite Hd. by case_match.
Qed.

Lemma run_cons (p : Object * Object) (pairs : list (Object * Object))
    (cdata : CollisionData) :
  run getUserData getCollisionGeometry collide (p :: pairs) cdata
  = run getUserData getCollisionGeometry collide pairs (data (callback p.1 p.2 cdata)).
Proof. reflexivity. Qed.

Lemma run_req (pairs : list (Object * Object)) (cdata : CollisionData) :
  req_ (run getUserData getCollisionGeometry collide pairs cdata) = req_ cdata.
Proof.
  revert cdata. induction pairs as [|p pairs IH]; intros cdata; [done|].
  rewrite run_cons, IH.
  by destruct (callback_step p.1 p.2 cdata) as (new & -> & _).
Qed.

Lemma run_per_pair (pairs : list (Object * Object)) (cdata : CollisionData) :
  (∀ k, length (stored (res_ cdata) k)
        ≤ CollisionRequest.max_contacts_per_pair (req_ cdata)) →
  ∀ k, length (stored (res_ (run getUserData getCollisionGeometry collide pairs cdata)) k)
       ≤ CollisionRequest.max_contacts_per_pair (req_ cdata).
Proof.
  revert cdata. induction pairs as [|p pairs IH]; intros cdata Hinv k; [apply Hinv|].
  rewrite run_cons.
  pose proof (callback_step p.1 p.2 cdata) as (new & Hreq & _).
  rewrite <- Hreq. apply IH. rewrite Hreq. by apply step_per_pair.
Qed.

Lemma run_total (pairs : list (Object * Object)) (cdata : CollisionData) :
  CollisionResult.contact_count (res_ cdata)
  ≤ CollisionRequest.max_contacts (req_ cdata)
    + (CollisionRequest.max_contacts_per_pair (req_ cdata) - 1) →
  CollisionResult.contact_count
    (res_ (run getUserData getCollisionGeometry collide pairs cdata))
  ≤ CollisionRequest.max_contacts (req_ cdata)
    + (CollisionRequest.max_contacts_per_pair (req_ cdata) - 1).
Proof.
  revert cdata. induction pairs as [|p pairs IH]; intros cdata Hinv; [apply Hinv|].
  rewrite run_cons.
  pose proof (callback_step p.1 p.2 cdata) as (new & Hreq & _).
  rewrite <- Hreq. apply IH. rewrite Hreq. by apply step_total.
Qed.

Lemma run_done_complete (pairs : list (Object * Object)) (cdata : CollisionData) :
  (done_ cdata = true → run_complete (req_ cdata) (res_ cdata) = true) →
  done_ (run getUserData getCollisionGeometry collide pairs cdata) = true →
  run_complete (req_ cdata)
    (res_ (run getUserData getCollisionGeometry collide pairs cdata)) = true.
Proof.
  revert cdata. induction pairs as [|p pairs IH]; intros cdata Hinv; [apply Hinv|].
  rewrite run_cons.
  pose proof (callback_step p.1 p.2 cdata) as (new & Hreq & _).
  rewrite <- Hreq. apply IH. rewrite Hreq. by apply step_done_complete.
Qed.

Lemma touch_link_override_self (cd : CollisionGeometryData) :
  touch_link_override cd cd = false.
Proof. by destruct cd. Qed.

(** ** The claims *)

(** C1, as amended.  In a run that starts from a fresh result with a request
    that wants contacts, once [done_] is true the total [contact_count] has
    reached [max_contacts] and exceeds it by at most
    [max_contacts_per_pair - 1]: the contacts of the last pair are stored up
    to the budget of the pair, whatever is left of the global budget. *)
Theorem total_contact_count_at_done (req : CollisionRequest.t)
    (acm : option AllowedCollisionMatrix) (pairs : list (Object * Object)) :
  CollisionRequest.contacts req = true →
  done_ (run getUserData getCollisionGeometry collide pairs (fresh_data req acm)) = true →
  CollisionRequest.max_contacts req
  ≤ CollisionResult.contact_count
      (res_ (run getUserData getCollisionGeometry collide pairs (fresh_data req acm)))
  ∧ CollisionResult.contact_count
      (res_ (run getUserData getCollisionGeometry collide pairs (fresh_data req acm)))
    ≤ CollisionRequest.max_contacts req
      + (CollisionRequest.max_contacts_per_pair req - 1).
Proof.
  intros Hwant Hdone. split.
  - pose proof (run_done_complete pairs (fresh_data req acm)) as Hc.
    simpl in Hc. specialize (Hc ltac:(discriminate) Hdone).
    unfold run_complete in Hc. rewrite Hwant in Hc. simpl in Hc.
    apply andb_prop in Hc as [_ Hc]. by apply Nat.leb_le in Hc.
  - apply (run_total pairs (fresh_data req acm)). simpl. lia.
Qed.

(** C2, as amended.  The contacts a call stores go to the end of the
    sequence under the key of the pair and nowhere else; the two components
    of that key are in increasing order when the two ids differ; and each
    stored contact carries, as [body_name_1] and [body_name_2] (and the
    types next to them), the ids of the bodies the narrow phase labelled
    [o1] and [o2] in the raw contact, in that order. *)
Theorem stored_contact_labels (o1 o2 : Object) (cdata : CollisionData) :
  ∃ new,
    (∀ k, stored (res_ (data (callback o1 o2 cdata))) k
          = stored (res_ cdata) k ++ (if decide (k = key o1 o2) then new else []))
    ∧ (getID (body o1) ≠ getID (body o2) →
       String.ltb (key o1 o2).1 (key o1 o2).2 = true)
    ∧ Forall (λ c, ∃ cap ex en fc,
                fc ∈ collide o1 o2 cap ex en
                ∧ body_name_1 c = getID (getUserData (fc_o1 fc))
                ∧ body_type_1 c = type (getUserData (fc_o1 fc))
                ∧ body_name_2 c = getID (getUserData (fc_o2 fc))
                ∧ body_type_2 c = type (getUserData (fc_o2 fc))) new.
Proof.
  destruct (callback_step o1 o2 cdata) as (new & _ & _ & [Hst _] & _ & F).
  exists new. split; [exact Hst|]. split; [apply pair_key_ordered|].
  eapply List.Forall_impl; [|exact F].
  intros c (cap & ex & en & fc & Hin & ->). by exists cap, ex, en, fc.
Qed.

(** C3.  When the disposition of a pair resolves to [Always], by its entry
    in the matrix or by the touch-link rule in either order (whatever the
    matrix says, a conditional entry included), the call leaves the whole
    [CollisionData] as it was, so stores no contact and does not raise
    [collision], and does not call the narrow phase, whatever the narrow
    phase would return. *)
Theorem always_pair_untouched (o1 o2 : Object) (cdata : CollisionData) :
  resolves_to_always cdata (body o1) (body o2) = true →
  data (callback o1 o2 cdata) = cdata
  ∧ List.filter is_collide (trace (callback o1 o2 cdata)) = []
  ∧ ret (callback o1 o2 cdata) = done_ cdata.
Proof.
  intros Ha. destruct (done_ cdata) eqn:Hd.
  - by rewrite callback_done.
  - rewrite callback_always by done. simpl.
    split; [done|]. split; [apply read_acm_no_collide|done].
Qed.

(** C4.  In a call that reaches the narrow phase, [done_] is set to true
    exactly when, afterwards, [collision] is true and the request does not
    want contacts or [contact_count] has reached [max_contacts]; otherwise
    it keeps the value it had.  The call returns [done_]. *)
Theorem done_after_narrow_phase (o1 o2 : Object) (cdata : CollisionData) :
  done_ cdata = false →
  resolves_to_always cdata (body o1) (body o2) = false →
  done_ (data (callback o1 o2 cdata))
  = (if CollisionResult.collision (res_ (data (callback o1 o2 cdata)))
        && (negb (CollisionRequest.contacts (req_ cdata))
            || (CollisionRequest.max_contacts (req_ cdata)
                <=? CollisionResult.contact_count (res_ (data (callback o1 o2 cdata)))))
     then true else done_ cdata)
  ∧ ret (callback o1 o2 cdata) = done_ (data (callback o1 o2 cdata)).
Proof.
  intros Hd Ha. rewrite callback_checked by done. simpl.
  split; [|done].
  rewrite check_done_flag.
  match goal with |- context [check_done ?c] =>
    destruct (check_done_frame c) as (_ & -> & _) end.
  reflexivity.
Qed.

(** C6.  Throughout a run that starts from a fresh result, whatever pairs
    are handed to the callback and however often, no key of [contacts]
    holds more than [max_contacts_per_pair] contacts. *)
Theorem contacts_per_pair_bounded (req : CollisionRequest.t)
    (acm : option AllowedCollisionMatrix) (pairs : list (Object * Object))
    (k : string * string) :
  length (stored (res_ (run getUserData getCollisionGeometry collide pairs
                          (fresh_data req acm))) k)
  ≤ CollisionRequest.max_contacts_per_pair req.
Proof.
  apply (run_per_pair pairs (fresh_data req acm)).
  intros k'. unfold stored. simpl. rewrite lookup_empty. simpl. lia.
Qed.

(** C7.  For a pair with a conditional entry whose decider accepts every
    contact of the exhaustive enumeration, the call leaves the result as it
    was: [collision] keeps its value and no contact is stored. *)
Theorem conditional_all_accepted (o1 o2 : Object) (cdata : CollisionData)
    (acm : AllowedCollisionMatrix) (predicate : Contact → bool) :
  acm_ cdata = Some acm →
  getAllowedCollision_type acm (getID (body o1)) (getID (body o2))
  = Some AllowedCollision.CONDITIONAL →
  getAllowedCollision_fn acm (getID (body o1)) (getID (body o2)) = Some predicate →
  (∀ fc, fc ∈ collide o1 o2 INT_MAX true true →
         predicate (fcl2contact getUserData fc) = true) →
  res_ (data (callback o1 o2 cdata)) = res_ cdata.
Proof.
  intros Hacm Hty Hfn Hall.
  destruct (done_ cdata) eqn:Hd; [by rewrite callback_done|].
  destruct (resolves_to_always cdata (body o1) (body o2)) eqn:Ha;
    [by rewrite callback_always|].
  rewrite callback_checked by done. simpl.
  match goal with |- context [check_done ?c] =>
    destruct (check_done_frame c) as (_ & -> & _) end.
  simpl. rewrite (read_acm_conditional cdata _ _ acm Hacm Hty), Hfn.
  unfold narrow_phase.
  destruct (0 <? length _); [|done].
  simpl. by rewrite decide_contacts_accepted.
Qed.

(** C8.  A call made when [done_] is already true returns true at once: the
    [CollisionData] is unchanged and neither the matrix nor the narrow
    phase is called. *)
Theorem done_short_circuit (o1 o2 : Object) (cdata : CollisionData) :
  done_ cdata = true →
  ret (callback o1 o2 cdata) = true
  ∧ data (callback o1 o2 cdata) = cdata
  ∧ trace (callback o1 o2 cdata) = [].
Proof. intros Hd. by rewrite callback_done. Qed.

(** C9, as amended.  A body paired against itself is not checked for: when
    the run is not done and the matrix does not always allow the pair, the
    call goes on to exactly one narrow-phase query of the object against
    itself, and what it stores goes under the key [(id, id)]. *)
Theorem self_pair_processed (o : Object) (cdata : CollisionData) :
  done_ cdata = false →
  table_always cdata (body o) (body o) = false →
  (∃ cap ex en,
     List.filter is_collide (trace (callback o o cdata)) = [Ev_collide o o cap ex en])
  ∧ ∃ new,
      ∀ k, stored (res_ (data (callback o o cdata))) k
           = stored (res_ cdata) k
             ++ (if decide (k = (getID (body o), getID (body o))) then new else []).
Proof.
  intros Hd Ht. split.
  - assert (resolves_to_always cdata (body o) (body o) = false) as Ha.
    { unfold resolves_to_always. by rewrite Ht, touch_link_override_self. }
    rewrite callback_checked by done. simpl.
    destruct (narrow_phase_extends o o (body o) (body o)
                (read_acm (fcl_CollisionObject := Object) cdata (body o) (body o)).1.2
                (want_contact_count (req_ cdata) (res_ cdata) (body o) (body o))
                (res_ cdata)) as (new & cap & ex & en & Hev & _).
    exists cap, ex, en.
    rewrite List.filter_app, read_acm_no_collide, Hev. reflexivity.
  - destruct (callback_step o o cdata) as (new & _ & _ & [Hst _] & _).
    exists new. intros k. rewrite Hst. by rewrite pair_key_self.
Qed.

End Properties.

(** C5.  [want_contact_count], as the callback computes it before calling
    the narrow phase, is [remaining_for_pair] at the canonical key of the
    pair: 0 when contacts are not wanted or the total has reached
    [max_contacts], otherwise [max_contacts_per_pair] less the number of
    contacts stored under the key, and 0 when that would be negative. *)
Theorem want_contact_count_remaining_for_pair (req : CollisionRequest.t)
    (res : CollisionResult.t) (cd1 cd2 : CollisionGeometryData) :
  Z.of_nat (want_contact_count req res cd1 cd2)
  = remaining_for_pair req res (canonical_pair (getID cd1) (getID cd2)).
Proof.
  rewrite <- pair_key_canonical.
  unfold want_contact_count, remaining_for_pair, pair_key.
  destruct (CollisionRequest.contacts req); simpl; [|done].
  rewrite Nat.ltb_antisym.
  destruct (CollisionRequest.max_contacts req <=? CollisionResult.contact_count res);
    simpl; [done|].
  destruct (String.ltb (getID cd1) (getID cd2)); rewrite size_at_stored;
    destruct (_ <? CollisionRequest.max_contacts_per_pair req) eqn:E;
    (apply Nat.ltb_lt in E || apply Nat.ltb_ge in E); lia.
Qed.

(** C10.  For a static shape whose type is not [PLANE],
    [createCollisionGeometry] logs the type and returns a null handle. *)
Theorem createCollisionGeometry_unsupported (shape : shapes.StaticShape) :
  shapes.type shape ≠ shapes.PLANE →
  ∃ n, shapes.type shape = shapes.OTHER_STATIC_SHAPE n
       ∧ createCollisionGeometry shape = (None, [ROS_FATAL_unsupported_shape n]).
Proof.
  intros Hne. unfold createCollisionGeometry.
  destruct (shapes.type shape) as [|n]; [done|].
  by exists n.
Qed.

(** ** The statements on the concrete scene *)

(** C1 as stated fails: with at most 5 contacts in all and 10 for a pair,
    the second of three pairs that offer 3 contacts each brings the total to
    6, and the run is done with 6 contacts. *)
Lemma total_contact_count_exceeds_max :
  done_ Scene.after_three_pairs = true
  ∧ CollisionRequest.contacts (req_ Scene.after_three_pairs) = true
  ∧ CollisionResult.contact_count (res_ Scene.after_three_pairs) = 6
  ∧ CollisionRequest.max_contacts (req_ Scene.after_three_pairs) = 5
  ∧ ¬ (CollisionResult.contact_count (res_ Scene.after_three_pairs)
       ≤ CollisionRequest.max_contacts (req_ Scene.after_three_pairs)).
Proof.
  assert (CollisionResult.contact_count (res_ Scene.after_three_pairs) = 6) as E
    by (vm_compute; reflexivity).
  split; [vm_compute; reflexivity|]. split; [vm_compute; reflexivity|].
  split; [exact E|]. split; [vm_compute; reflexivity|].
  rewrite E. vm_compute. lia.
Qed.

Lemma total_contact_count_at_done_witness :
  (CollisionRequest.contacts (Scene.request true 5 10) = true
   ∧ done_ (Scene.run3 Scene.three_pairs Scene.start_5_10) = true)
  ∧ (5 ≤ CollisionResult.contact_count (res_ (Scene.run3 Scene.three_pairs Scene.start_5_10))
     ∧ CollisionResult.contact_count (res_ (Scene.run3 Scene.three_pairs Scene.start_5_10))
       ≤ 5 + (10 - 1)).
Proof.
  split; [split; vm_compute; reflexivity|].
  apply (total_contact_count_at_done Scene.userData Scene.geometry Scene.collide3
           (Scene.request true 5 10) None Scene.three_pairs);
    vm_compute; reflexivity.
Defined.

(** C2 as stated fails: when the broad phase hands over [box_b] before
    [box_a], the narrow phase labels them in that order and the contacts
    stored under [("box_a", "box_b")] name [box_b] first. *)
Lemma stored_contact_labels_unordered :
  Scene.names <$> stored (res_ (data (Scene.callback3 Scene.box_b Scene.box_a Scene.start_5_10)))
                         ("box_a", "box_b")
  = [("box_b", "box_a"); ("box_b", "box_a"); ("box_b", "box_a")]
  ∧ String.ltb "box_b" "box_a" = false.
Proof. split; vm_compute; reflexivity. Qed.

Lemma stored_contact_labels_witness :
  getID Scene.box_b ≠ getID Scene.box_a
  ∧ ∃ new,
      (∀ k, stored (res_ (data (Scene.callback3 Scene.box_b Scene.box_a Scene.start_5_10))) k
            = stored (res_ Scene.start_5_10) k
              ++ (if decide (k = pair_key "box_b" "box_a") then new else []))
      ∧ (getID Scene.box_b ≠ getID Scene.box_a →
         String.ltb (pair_key "box_b" "box_a").1 (pair_key "box_b" "box_a").2 = true)
      ∧ Forall (λ c, ∃ cap ex en fc,
                  fc ∈ Scene.collide3 Scene.box_b Scene.box_a cap ex en
                  ∧ body_name_1 c = getID (Scene.userData (fc_o1 fc))
                  ∧ body_type_1 c = type (Scene.userData (fc_o1 fc))
                  ∧ body_name_2 c = getID (Scene.userData (fc_o2 fc))
                  ∧ body_type_2 c = type (Scene.userData (fc_o2 fc))) new.
Proof.
  split; [discriminate|].
  exact (stored_contact_labels Scene.userData Scene.geometry Scene.collide3
           Scene.box_b Scene.box_a Scene.start_5_10).
Defined.

Lemma always_pair_untouched_witness :
  resolves_to_always Scene.start_conditional_touch Scene.link_L Scene.attached_A = true
  ∧ (data (Scene.callback3 Scene.link_L Scene.attached_A Scene.start_conditional_touch)
     = Scene.start_conditional_touch
     ∧ List.filter is_collide
         (trace (Scene.callback3 Scene.link_L Scene.attached_A Scene.start_conditional_touch))
       = []
     ∧ ret (Scene.callback3 Scene.link_L Scene.attached_A Scene.start_conditional_touch)
       = done_ Scene.start_conditional_touch).
Proof.
  split; [vm_compute; reflexivity|].
  apply (always_pair_untouched Scene.userData Scene.geometry Scene.collide3
           Scene.link_L Scene.attached_A Scene.start_conditional_touch).
  vm_compute; reflexivity.
Defined.

Lemma done_after_narrow_phase_witness :
  (done_ Scene.start_no_contacts = false
   ∧ resolves_to_always Scene.start_no_contacts Scene.box_a Scene.box_b = false)
  ∧ done_ (data (Scene.callback3 Scene.box_a Scene.box_b Scene.start_no_contacts)) = true
  ∧ ret (Scene.callback3 Scene.box_a Scene.box_b Scene.start_no_contacts) = true.
Proof.
  split; [split; vm_compute; reflexivity|].
  unfold Scene.callback3.
  destruct (done_after_narrow_phase Scene.userData Scene.geometry Scene.collide3
              Scene.box_a Scene.box_b Scene.start_no_contacts) as [Hdone Hret];
    [vm_compute; reflexivity | vm_compute; reflexivity |].
  split; [|rewrite Hret]; rewrite Hdone; vm_compute; reflexivity.
Defined.

Lemma conditional_all_accepted_witness :
  (acm_ Scene.start_conditional_accept = Some Scene.accepting_matrix
   ∧ getAllowedCollision_type Scene.accepting_matrix "box_a" "box_b"
     = Some AllowedCollision.CONDITIONAL
   ∧ getAllowedCollision_fn Scene.accepting_matrix "box_a" "box_b"
     = Some Scene.accept_all
   ∧ length (Scene.collide3 Scene.box_a Scene.box_b INT_MAX true true) = 3)
  ∧ res_ (data (Scene.callback3 Scene.box_a Scene.box_b Scene.start_conditional_accept))
    = res_ Scene.start_conditional_accept.
Proof.
  split; [repeat split; vm_compute; reflexivity|].
  apply (conditional_all_accepted Scene.userData Scene.geometry Scene.collide3
           Scene.box_a Scene.box_b Scene.start_conditional_accept
           Scene.accepting_matrix Scene.accept_all).
  - reflexivity.
  - vm_compute; reflexivity.
  - vm_compute; reflexivity.
  - intros fc _. reflexivity.
Defined.

Lemma done_short_circuit_witness :
  done_ Scene.after_three_pairs = true
  ∧ (ret (Scene.callback3 Scene.box_b Scene.box_c Scene.after_three_pairs) = true
     ∧ data (Scene.callback3 Scene.box_b Scene.box_c Scene.after_three_pairs)
       = Scene.after_three_pairs
     ∧ trace (Scene.callback3 Scene.box_b Scene.box_c Scene.after_three_pairs) = []).
Proof.
  split; [vm_compute; reflexivity|].
  apply (done_short_circuit Scene.userData Scene.geometry Scene.collide3
           Scene.box_b Scene.box_c Scene.after_three_pairs).
  vm_compute; reflexivity.
Defined.

(** C9 as stated fails: handed [box_a] twice, the callback queries the
    narrow phase for [box_a] against itself, reports a collision and stores
    three contacts of [box_a] with [box_a]. *)
Lemma self_pair_not_rejected :
  trace (Scene.callback3 Scene.box_a Scene.box_a Scene.start_5_10)
  = [Ev_collide Scene.box_a Scene.box_a 10 false true]
  ∧ CollisionResult.collision
      (res_ (data (Scene.callback3 Scene.box_a Scene.box_a Scene.start_5_10))) = true
  ∧ Scene.names <$> stored (res_ (data (Scene.callback3 Scene.box_a Scene.box_a Scene.start_5_10)))
                           ("box_a", "box_a")
    = [("box_a", "box_a"); ("box_a", "box_a"); ("box_a", "box_a")].
Proof. repeat split; vm_compute; reflexivity. Qed.

Lemma self_pair_processed_witness :
  (done_ Scene.start_5_10 = false
   ∧ table_always Scene.start_5_10 Scene.box_a Scene.box_a = false)
  ∧ (∃ cap ex en,
       List.filter is_collide (trace (Scene.callback3 Scene.box_a Scene.box_a Scene.start_5_10))
       = [Ev_collide Scene.box_a Scene.box_a cap ex en])
  ∧ ∃ new,
      ∀ k, stored (res_ (data (Scene.callback3 Scene.box_a Scene.box_a Scene.start_5_10))) k
           = stored (res_ Scene.start_5_10) k
             ++ (if decide (k = ("box_a", "box_a")) then new else []).
Proof.
  split; [split; vm_compute; reflexivity|].
  apply (self_pair_processed Scene.userData Scene.geometry Scene.collide3
           Scene.box_a Scene.start_5_10); vm_compute; reflexivity.
Defined.

Lemma createCollisionGeometry_unsupported_witness :
  shapes.type Scene.unsupported_shape ≠ shapes.PLANE
  ∧ ∃ n, shapes.type Scene.unsupported_shape = shapes.OTHER_STATIC_SHAPE n
         ∧ createCollisionGeometry Scene.unsupported_shape
           = (None, [ROS_FATAL_unsupported_shape n]).
Proof.
  split; [discriminate|].
  apply (createCollisionGeometry_unsupported Scene.unsupported_shape). discriminate.
Defined.

(** * Further properties of the code *)

(** ** Order of the two bodies *)

Lemma pair_key_swap (id1 id2 : string) : pair_key id1 id2 = pair_key id2 id1.
Proof.
  unfold pair_key.
  destruct (String.ltb id1 id2) eqn:E12.
  - by rewrite (ltb_asym _ _ E12).
  - destruct (decide (id1 = id2)) as [->|Hne].
    + by rewrite ltb_irrefl.
    + by rewrite (ltb_total _ _ E12 Hne).
Qed.

Lemma want_contact_count_key (req : CollisionRequest.t) (res : CollisionResult.t)
    (cd1 cd2 : CollisionGeometryData) :
  want_contact_count req res cd1 cd2
  = if CollisionRequest.contacts req
         && (CollisionResult.contact_count res <? CollisionRequest.max_contacts req)
    then CollisionRequest.max_contacts_per_pair req
         - length (stored res (pair_key (getID cd1) (getID cd2)))
    else 0.
Proof.
  unfold want_contact_count, pair_key.
  destruct (CollisionRequest.contacts req); simpl; [|done].
  destruct (_ <? CollisionRequest.max_contacts req); [|done].
  destruct (String.ltb (getID cd1) (getID cd2)); rewrite size_at_stored;
    destruct (_ <? CollisionRequest.max_contacts_per_pair req) eqn:E;
    (apply Nat.ltb_lt in E || apply Nat.ltb_ge in E); lia.
Qed.

(** X1.  The order in which the two bodies of a pair are handed over does
    not matter to the key of the pair, to the number of contacts the
    callback is ready to store for it, or to the touch-link test. *)
Theorem pair_order_irrelevant (req : CollisionRequest.t) (res : CollisionResult.t)
    (cd1 cd2 : CollisionGeometryData) (always : bool) :
  pair_key (getID cd1) (getID cd2) = pair_key (getID cd2) (getID cd1)
  ∧ want_contact_count req res cd1 cd2 = want_contact_count req res cd2 cd1
  ∧ touch_links cd1 cd2 always = touch_links cd2 cd1 always.
Proof.
  split; [apply pair_key_swap|]. split.
  - by rewrite !want_contact_count_key, pair_key_swap.
  - by destruct cd1, cd2.
Qed.

(** ** Bookkeeping of the map *)

Lemma total_stored_push_back (pc : string * string) (c : Contact)
    (res : CollisionResult.t) :
  total_stored (CollisionResult.push_back pc c res) = S (total_stored res).
Proof.
  unfold total_stored, CollisionResult.push_back; simpl.
  set (f := λ (_ : string * string) (v : list Contact) (n : nat), length v + n).
  assert (∀ (m : gmap (string * string) (list Contact)) j1 j2 z1 z2 y,
            j1 ≠ j2 → m !! j1 = Some z1 → m !! j2 = Some z2 →
            f j1 z1 (f j2 z2 y) = f j2 z2 (f j1 z1 y)) as Hcomm.
  { intros. unfold f. lia. }
  destruct (CollisionResult.contacts res !! pc) as [v|] eqn:E; simpl.
  - rewrite (map_fold_delete_L f 0 pc v _ (Hcomm _) E).
    rewrite <- insert_delete_eq.
    rewrite map_fold_insert_L; [|apply Hcomm|apply lookup_delete_eq].
    unfold f. rewrite length_app. simpl. lia.
  - rewrite map_fold_insert_L; [|apply Hcomm|exact E]. done.
Qed.

Lemma grows_at_refl (pc : string * string) (res : CollisionResult.t) :
  grows_at pc res res.
Proof. split; [done|by left]. Qed.

Lemma grows_at_push_back (pc : string * string) (c : Contact)
    (res res' : CollisionResult.t) :
  grows_at pc res res' → grows_at pc res (CollisionResult.push_back pc c res').
Proof.
  intros [H1 H2]. split.
  - intros k Hk. simpl. rewrite lookup_insert_ne by done. by apply H1.
  - right. simpl. rewrite lookup_insert_eq. eexists. split; [done|].
    intros Hnil. by apply app_nil in Hnil as [_ ?].
Qed.

Lemma grows_at_set_collision (pc : string * string) (res res' : CollisionResult.t) :
  grows_at pc res res' → grows_at pc res (CollisionResult.set_collision res').
Proof. intros [H1 H2]. split; [exact H1|exact H2]. Qed.

Section Further.

Context {Geometry Object : Type}.
Context (getUserData : Geometry → CollisionGeometryData).
Context (getCollisionGeometry : Object → Geometry).
Context (collide : Object → Object → Z → bool → bool → list (fcl_Contact Geometry)).

Local Abbreviation callback := (collisionCallback getUserData getCollisionGeometry collide).
Local Abbreviation run_ := (run getUserData getCollisionGeometry collide).
Local Abbreviation body o := (getUserData (getCollisionGeometry o)).
Local Abbreviation key o1 o2 := (pair_key (getID (body o1)) (getID (body o2))).
Local Abbreviation want_for cdata o1 o2 :=
  (want_contact_count (req_ cdata) (res_ cdata) (body o1) (body o2)).
Local Abbreviation convert := (fcl2contact getUserData).

(** ** Invariants of the loops, in general *)

Section Preserved.

Context (pc : string * string) (P : CollisionResult.t → Prop).
Context (P_push_back : ∀ r c, P r → P (CollisionResult.push_back pc c r)).
Context (P_set_collision : ∀ r, P r → P (CollisionResult.set_collision r)).

Lemma decide_contacts_preserves (f : Contact → bool)
    (cs : list (fcl_Contact Geometry)) (want : nat) (res : CollisionResult.t) :
  P res → P (decide_contacts getUserData f pc cs want res).2.
Proof.
  revert want res. induction cs as [|fc cs IH]; intros want res HP; simpl; [done|].
  destruct (f _); [by apply IH|].
  destruct (0 <? want); simpl; destruct (_ =? 0); simpl; auto.
Qed.

Lemma store_contacts_preserves (n : nat) (cs : list (fcl_Contact Geometry))
    (res : CollisionResult.t) :
  P res → P (store_contacts getUserData pc n cs res).
Proof.
  unfold store_contacts. generalize (take n cs) as l. intros l. revert res.
  induction l as [|fc l IH]; intros res HP; simpl; auto.
Qed.

End Preserved.

Lemma narrow_phase_preserves (P : CollisionResult.t → Prop) (o1 o2 : Object)
    (cd1 cd2 : CollisionGeometryData) (dcf : DecideContactFn) (want : nat)
    (res : CollisionResult.t) :
  (∀ r c, P r → P (CollisionResult.push_back (pair_key (getID cd1) (getID cd2)) c r)) →
  (∀ r, P r → P (CollisionResult.set_collision r)) →
  P res → P (narrow_phase getUserData collide o1 o2 cd1 cd2 dcf want res).1.
Proof.
  intros Hpush Hset HP. unfold narrow_phase.
  destruct dcf as [f|].
  - destruct (0 <? length _); simpl; [|done]. by apply decide_contacts_preserves.
  - destruct (0 <? want).
    + destruct (0 <? length _); simpl; [|done].
      apply store_contacts_preserves; auto.
    + destruct (0 <? length _); simpl; auto.
Qed.

Lemma callback_preserves (P : CollisionResult.t → Prop) (o1 o2 : Object)
    (cdata : CollisionData) :
  (∀ r c, P r → P (CollisionResult.push_back (key o1 o2) c r)) →
  (∀ r, P r → P (CollisionResult.set_collision r)) →
  P (res_ cdata) → P (res_ (data (callback o1 o2 cdata))).
Proof.
  intros Hpush Hset HP.
  destruct (done_ cdata) eqn:Hd; [by rewrite callback_done|].
  destruct (resolves_to_always cdata (body o1) (body o2)) eqn:Ha;
    [by rewrite callback_always|].
  rewrite callback_checked by done. simpl.
  match goal with |- context [check_done ?c] =>
    destruct (check_done_frame c) as (_ & -> & _) end.
  simpl. by apply narrow_phase_preserves.
Qed.

Lemma read_acm_decider (cdata : CollisionData) (cd1 cd2 : CollisionGeometryData) :
  (read_acm (fcl_CollisionObject := Object) cdata cd1 cd2).1.2 = decider cdata cd1 cd2.
Proof.
  unfold read_acm, decider.
  destruct (acm_ cdata) as [acm|]; [|done].
  by destruct (getAllowedCollision_type acm (getID cd1) (getID cd2)) as [[]|].
Qed.

(** The state a call that is neither cut short nor skipped leaves. *)
Lemma callback_checked_data (o1 o2 : Object) (cdata : CollisionData) :
  done_ cdata = false →
  resolves_to_always cdata (body o1) (body o2) = false →
  res_ (data (callback o1 o2 cdata))
  = (narrow_phase getUserData collide o1 o2 (body o1) (body o2)
       (decider cdata (body o1) (body o2)) (want_for cdata o1 o2) (res_ cdata)).1.
Proof.
  intros Hd Ha. rewrite callback_checked by done. simpl.
  match goal with |- context [check_done ?c] =>
    destruct (check_done_frame c) as (_ & -> & _) end.
  simpl. by rewrite read_acm_decider.
Qed.

(** ** What the narrow phase leaves in the result *)

Lemma decide_contacts_exact (f : Contact → bool) (pc : string * string)
    (cs : list (fcl_Contact Geometry)) (want : nat) (res : CollisionResult.t) :
  extends_at pc (take want (rejected f (convert <$> cs))) res
    (decide_contacts getUserData f pc cs want res).2
  ∧ CollisionResult.collision (decide_contacts getUserData f pc cs want res).2
    = CollisionResult.collision res
      || existsb (λ c, negb (f c)) (convert <$> cs).
Proof.
  revert want res. induction cs as [|fc cs IH]; intros want res; simpl.
  { rewrite take_nil, orb_false_r. split; [apply extends_at_refl|done]. }
  unfold rejected in *. simpl.
  destruct (f (convert fc)) eqn:Ef; simpl; [apply IH|].
  rewrite orb_true_r.
  destruct want as [|want]; simpl.
  { split; [|done]. apply extends_at_set_collision, extends_at_refl. }
  rewrite Nat.sub_0_r.
  pose proof (extends_at_set_collision _ _ _ _
                (extends_at_push_back pc [] (convert fc) res res
                   (extends_at_refl pc res))) as Hone.
  simpl in Hone.
  destruct (want =? 0) eqn:Ew; simpl.
  { apply Nat.eqb_eq in Ew as ->. rewrite take_0. by split. }
  destruct (IH want (CollisionResult.set_collision
                       (CollisionResult.push_back pc (convert fc) res))) as [E C].
  split.
  - apply (extends_at_trans pc [convert fc] _ _ _ _ Hone E).
  - by rewrite C.
Qed.

Lemma decide_contacts_zero (f : Contact → bool) (pc : string * string)
    (cs : list (fcl_Contact Geometry)) (res : CollisionResult.t) :
  (decide_contacts getUserData f pc cs 0 res).2 = res
  ∨ (decide_contacts getUserData f pc cs 0 res).2 = CollisionResult.set_collision res.
Proof.
  induction cs as [|fc cs IH]; simpl; [by left|].
  destruct (f _); [exact IH|]. simpl. by right.
Qed.

Lemma narrow_phase_zero (o1 o2 : Object) (cd1 cd2 : CollisionGeometryData)
    (dcf : DecideContactFn) (res : CollisionResult.t) :
  (narrow_phase getUserData collide o1 o2 cd1 cd2 dcf 0 res).1 = res
  ∨ (narrow_phase getUserData collide o1 o2 cd1 cd2 dcf 0 res).1
    = CollisionResult.set_collision res.
Proof.
  unfold narrow_phase. destruct dcf as [f|]; simpl.
  - destruct (0 <? length _); simpl; [apply decide_contacts_zero|by left].
  - destruct (0 <? length _); simpl; [by right|by left].
Qed.

Lemma narrow_phase_bounded (o1 o2 : Object) (cd1 cd2 : CollisionGeometryData)
    (want : nat) (res : CollisionResult.t) :
  0 < want →
  let cs := collide o1 o2 (size_t_to_int want) false true in
  let res' := (narrow_phase getUserData collide o1 o2 cd1 cd2 None want res).1 in
  extends_at (pair_key (getID cd1) (getID cd2)) (convert <$> take want cs) res res'
  ∧ CollisionResult.collision res'
    = CollisionResult.collision res || (0 <? length cs).
Proof.
  intros Hw cs res'. subst res'. unfold narrow_phase.
  replace (0 <? want) with true by (symmetry; by apply Nat.ltb_lt).
  fold cs. destruct (0 <? length cs) eqn:El; simpl.
  - assert (take (if length cs <=? want then length cs else want) cs = take want cs) as <-.
    { destruct (length cs <=? want) eqn:E; [|done].
      apply Nat.leb_le in E. by rewrite !take_ge by lia. }
    split.
    + pose proof (store_contacts_extends getUserData
                    (pair_key (getID cd1) (getID cd2))
                    (if length cs <=? want then length cs else want) cs
                    (CollisionResult.set_collision res)) as [H1 H2].
      split; [exact H1|exact H2].
    + rewrite orb_true_r.
      apply (store_contacts_preserves _ (λ r, CollisionResult.collision r = true));
        auto.
  - rewrite orb_false_r. split; [|done].
    apply Nat.ltb_ge in El. assert (cs = []) as -> by (destruct cs; [done|simpl in El; lia]).
    rewrite take_nil. apply extends_at_refl.
Qed.

Lemma narrow_phase_decided (o1 o2 : Object) (cd1 cd2 : CollisionGeometryData)
    (f : Contact → bool) (want : nat) (res : CollisionResult.t) :
  let cs := collide o1 o2 INT_MAX true true in
  let res' := (narrow_phase getUserData collide o1 o2 cd1 cd2 (Some f) want res).1 in
  extends_at (pair_key (getID cd1) (getID cd2))
    (take want (rejected f (convert <$> cs))) res res'
  ∧ CollisionResult.collision res'
    = CollisionResult.collision res || existsb (λ c, negb (f c)) (convert <$> cs).
Proof.
  intros cs res'. subst res'. unfold narrow_phase. fold cs.
  destruct (0 <? length cs) eqn:El; simpl; [apply decide_contacts_exact|].
  apply Nat.ltb_ge in El. assert (cs = []) as -> by (destruct cs; [done|simpl in El; lia]).
  simpl. rewrite take_nil, orb_false_r. split; [apply extends_at_refl|done].
Qed.

(** ** Single calls *)

(** X2.  Whatever path a call takes, the value it returns is the [done_]
    flag it leaves in the callback data. *)
Theorem callback_returns_done (o1 o2 : Object) (cdata : CollisionData) :
  ret (callback o1 o2 cdata) = done_ (data (callback o1 o2 cdata)).
Proof.
  destruct (done_ cdata) eqn:Hd; [by rewrite callback_done|].
  destruct (resolves_to_always cdata (body o1) (body o2)) eqn:Ha.
  - by rewrite callback_always.
  - by rewrite callback_checked.
Qed.


(** X4.  For a pair with a decider, a call that reaches the narrow phase
    stores the first [want_contact_count] contacts the decider rejects, in the
    order of the exhaustive enumeration, and raises [collision] exactly when
    the decider rejects some contact, also when there is no room to store
    it. *)
Theorem decided_pair_stores_rejected (o1 o2 : Object) (cdata : CollisionData)
    (f : Contact → bool) :
  done_ cdata = false →
  resolves_to_always cdata (body o1) (body o2) = false →
  decider cdata (body o1) (body o2) = Some f →
  extends_at (key o1 o2)
    (take (want_for cdata o1 o2)
          (rejected f (convert <$> collide o1 o2 INT_MAX true true)))
    (res_ cdata) (res_ (data (callback o1 o2 cdata)))
  ∧ CollisionResult.collision (res_ (data (callback o1 o2 cdata)))
    = CollisionResult.collision (res_ cdata)
      || existsb (λ c, negb (f c)) (convert <$> collide o1 o2 INT_MAX true true).
Proof.
  intros Hd Ha Hf. rewrite callback_checked_data, Hf by done.
  apply narrow_phase_decided.
Qed.

(** X5.  For a pair without decider and with room for contacts, a call that
    reaches the narrow phase stores the contacts of the bounded query in
    their order, cut off after [want_contact_count] of them should the narrow
    phase return more, and raises [collision] exactly when the query returns
    some contact. *)
Theorem plain_pair_stores_first (o1 o2 : Object) (cdata : CollisionData) :
  done_ cdata = false →
  resolves_to_always cdata (body o1) (body o2) = false →
  decider cdata (body o1) (body o2) = None →
  0 < want_for cdata o1 o2 →
  extends_at (key o1 o2)
    (convert <$> take (want_for cdata o1 o2)
                      (collide o1 o2 (size_t_to_int (want_for cdata o1 o2)) false true))
    (res_ cdata) (res_ (data (callback o1 o2 cdata)))
  ∧ CollisionResult.collision (res_ (data (callback o1 o2 cdata)))
    = CollisionResult.collision (res_ cdata)
      || (0 <? length (collide o1 o2 (size_t_to_int (want_for cdata o1 o2)) false true)).
Proof.
  intros Hd Ha Hf Hw. rewrite callback_checked_data, Hf by done.
  by apply narrow_phase_bounded.
Qed.

Lemma callback_zero (o1 o2 : Object) (cdata : CollisionData) :
  want_for cdata o1 o2 = 0 →
  res_ (data (callback o1 o2 cdata)) = res_ cdata
  ∨ res_ (data (callback o1 o2 cdata)) = CollisionResult.set_collision (res_ cdata).
Proof.
  intros Hw.
  destruct (done_ cdata) eqn:Hd; [left; by rewrite callback_done|].
  destruct (resolves_to_always cdata (body o1) (body o2)) eqn:Ha;
    [left; by rewrite callback_always|].
  rewrite callback_checked_data, Hw by done. apply narrow_phase_zero.
Qed.


(** X7.  For a pair without decider and without room, a call that reaches
    the narrow phase raises [collision] if the overlap test finds a contact
    and changes nothing else in the result. *)
Theorem overlap_test_only (o1 o2 : Object) (cdata : CollisionData) :
  done_ cdata = false →
  resolves_to_always cdata (body o1) (body o2) = false →
  decider cdata (body o1) (body o2) = None →
  want_for cdata o1 o2 = 0 →
  res_ (data (callback o1 o2 cdata))
  = if 0 <? length (collide o1 o2 1 false false)
    then CollisionResult.set_collision (res_ cdata)
    else res_ cdata.
Proof.
  intros Hd Ha Hf Hw. rewrite callback_checked_data, Hf, Hw by done.
  unfold narrow_phase. simpl. by destruct (0 <? length _).
Qed.

(** X8.  A call can raise [collision] only if one of the three queries of
    the narrow phase on this pair returns a contact. *)
Theorem collision_needs_contact (o1 o2 : Object) (cdata : CollisionData) :
  CollisionResult.collision (res_ cdata) = false →
  CollisionResult.collision (res_ (data (callback o1 o2 cdata))) = true →
  ∃ cap ex en, collide o1 o2 cap ex en ≠ [].
Proof.
  intros Hc Hc'.
  destruct (done_ cdata) eqn:Hd; [rewrite callback_done in Hc' by done; simpl in Hc'; congruence|].
  destruct (resolves_to_always cdata (body o1) (body o2)) eqn:Ha;
    [rewrite callback_always in Hc' by done; simpl in Hc'; congruence|].
  rewrite callback_checked_data in Hc' by done.
  destruct (decider cdata (body o1) (body o2)) as [f|].
  - destruct (narrow_phase_decided o1 o2 (body o1) (body o2) f
                (want_for cdata o1 o2) (res_ cdata)) as [_ C].
    rewrite C, Hc in Hc'. simpl in Hc'.
    exists INT_MAX, true, true. intros E. rewrite E in Hc'. done.
  - destruct (want_for cdata o1 o2) as [|w] eqn:Hw.
    + unfold narrow_phase in Hc'. simpl in Hc'.
      exists 1%Z, false, false. intros E. rewrite E in Hc'. simpl in Hc'. congruence.
    + destruct (narrow_phase_bounded o1 o2 (body o1) (body o2) (S w) (res_ cdata))
        as [_ C]; [lia|].
      rewrite C, Hc in Hc'. simpl in Hc'.
      exists (size_t_to_int (S w)), false, true. intros E. rewrite E in Hc'. done.
Qed.

(** X9.  An entry of the matrix that is neither [ALWAYS] nor a conditional
    entry with a decider has no effect: the call leaves the same result and
    the same [done_] flag as without matrix.  This holds in particular for a
    conditional entry whose decider is empty. *)
Theorem entry_without_effect (o1 o2 : Object) (cdata : CollisionData) :
  table_always cdata (body o1) (body o2) = false →
  decider cdata (body o1) (body o2) = None →
  res_ (data (callback o1 o2 cdata)) = res_ (data (callback o1 o2 (with_acm cdata None)))
  ∧ done_ (data (callback o1 o2 cdata))
    = done_ (data (callback o1 o2 (with_acm cdata None))).
Proof.
  intros Ht Hf.
  destruct (done_ cdata) eqn:Hd.
  { rewrite !callback_done by done. done. }
  assert (done_ (with_acm cdata None) = false) as Hd' by done.
  assert (resolves_to_always (with_acm cdata None) (body o1) (body o2)
          = resolves_to_always cdata (body o1) (body o2)) as Hres.
  { unfold resolves_to_always. by rewrite Ht. }
  destruct (resolves_to_always cdata (body o1) (body o2)) eqn:Ha.
  { rewrite !callback_always by done. done. }
  assert (∀ cd, done_ cd = false →
            resolves_to_always cd (body o1) (body o2) = false →
            done_ (data (callback o1 o2 cd))
            = run_complete (req_ cd) (res_ (data (callback o1 o2 cd)))) as Hdone.
  { intros cd H1 H2. rewrite callback_checked by done. simpl.
    rewrite check_done_flag.
    match goal with |- context [check_done ?c] =>
      destruct (check_done_frame c) as (_ & -> & _) end.
    simpl. rewrite H1. by case_match. }
  rewrite !Hdone by done.
  rewrite !callback_checked_data by done. rewrite Hf. done.
Qed.

(** ** Runs *)

Lemma run_invariant (I : CollisionData → Prop) :
  (∀ o1 o2 cdata, I cdata → I (data (callback o1 o2 cdata))) →
  ∀ pairs cdata, I cdata → I (run_ pairs cdata).
Proof.
  intros Hstep pairs. induction pairs as [|p pairs IH]; intros cdata HI; [done|].
  rewrite run_cons. apply IH, Hstep, HI.
Qed.

Lemma run_acm (pairs : list (Object * Object)) (cdata : CollisionData) :
  acm_ (run_ pairs cdata) = acm_ cdata.
Proof.
  apply (run_invariant (λ cd, acm_ cd = acm_ cdata)); [|done].
  intros o1 o2 cd <-.
  by destruct (callback_step getUserData getCollisionGeometry collide o1 o2 cd)
    as (new & _ & -> & _).
Qed.

(** X10.  Once [done_] is true, the rest of the run changes nothing, however
    many pairs follow. *)
Theorem run_after_done (pairs : list (Object * Object)) (cdata : CollisionData) :
  done_ cdata = true → run_ pairs cdata = cdata.
Proof.
  intros Hd.
  apply (run_invariant (λ cd, cd = cdata)); [|done].
  intros o1 o2 cd ->. by rewrite callback_done.
Qed.

Lemma callback_monotone (o1 o2 : Object) (cdata : CollisionData) :
  (CollisionResult.collision (res_ cdata) = true →
   CollisionResult.collision (res_ (data (callback o1 o2 cdata))) = true)
  ∧ (done_ cdata = true → done_ (data (callback o1 o2 cdata)) = true)
  ∧ CollisionResult.contact_count (res_ cdata)
    ≤ CollisionResult.contact_count (res_ (data (callback o1 o2 cdata)))
  ∧ ∀ k, stored (res_ cdata) k `prefix_of` stored (res_ (data (callback o1 o2 cdata))) k.
Proof.
  split; [|split; [|split]].
  - apply (callback_preserves (λ r, CollisionResult.collision r = true)); auto.
  - intros Hd. by rewrite callback_done.
  - destruct (callback_step getUserData getCollisionGeometry collide o1 o2 cdata)
      as (new & _ & _ & [_ Hcnt] & _). lia.
  - intros k.
    destruct (callback_step getUserData getCollisionGeometry collide o1 o2 cdata)
      as (new & _ & _ & [Hst _] & _).
    rewrite Hst. by eexists.
Qed.

(** X11.  Over a run, from any state: [collision] and [done_], once true,
    stay true; [contact_count] never decreases; the sequence stored under a
    key is only ever extended at its end; the request and the matrix are
    left alone. *)
Theorem run_monotone (pairs : list (Object * Object)) (cdata : CollisionData) :
  (CollisionResult.collision (res_ cdata) = true →
   CollisionResult.collision (res_ (run_ pairs cdata)) = true)
  ∧ (done_ cdata = true → done_ (run_ pairs cdata) = true)
  ∧ CollisionResult.contact_count (res_ cdata)
    ≤ CollisionResult.contact_count (res_ (run_ pairs cdata))
  ∧ (∀ k, stored (res_ cdata) k `prefix_of` stored (res_ (run_ pairs cdata)) k)
  ∧ req_ (run_ pairs cdata) = req_ cdata
  ∧ acm_ (run_ pairs cdata) = acm_ cdata.
Proof.
  split; [|split; [|split; [|split; [|split]]]].
  - intros Hc.
    apply (run_invariant (λ cd, CollisionResult.collision (res_ cd) = true)); [|done].
    intros o1 o2 cd. apply callback_monotone.
  - intros Hd.
    apply (run_invariant (λ cd, done_ cd = true)); [|done].
    intros o1 o2 cd. apply callback_monotone.
  - apply (run_invariant (λ cd, CollisionResult.contact_count (res_ cdata)
                                ≤ CollisionResult.contact_count (res_ cd))); [|done].
    intros o1 o2 cd Hle.
    destruct (callback_monotone o1 o2 cd) as (_ & _ & Hcnt & _). lia.
  - intros k.
    apply (run_invariant (λ cd, stored (res_ cdata) k `prefix_of` stored (res_ cd) k));
      [|done].
    intros o1 o2 cd Hpre.
    destruct (callback_monotone o1 o2 cd) as (_ & _ & _ & Hst).
    by etrans.
  - apply run_req.
  - apply run_acm.
Qed.

(** X12.  In a run that starts from a fresh result, [done_] is true exactly
    when [collision] is true and either contacts are not wanted or
    [contact_count] has reached [max_contacts]: the flag never lags behind
    the criterion and is never set without it. *)
Theorem done_is_run_complete (req : CollisionRequest.t)
    (acm : option AllowedCollisionMatrix) (pairs : list (Object * Object)) :
  done_ (run_ pairs (fresh_data req acm))
  = CollisionResult.collision (res_ (run_ pairs (fresh_data req acm)))
    && (negb (CollisionRequest.contacts req)
        || (CollisionRequest.max_contacts req
            <=? CollisionResult.contact_count (res_ (run_ pairs (fresh_data req acm))))).
Proof.
  pose proof (run_req getUserData getCollisionGeometry collide pairs (fresh_data req acm))
    as Hreq. simpl in Hreq. rewrite <- Hreq at 3 4.
  apply (run_invariant (λ cd, done_ cd = run_complete (req_ cd) (res_ cd))); [|done].
  intros o1 o2 cd HI.
  destruct (done_ cd) eqn:Hd; [rewrite callback_done by done; simpl; congruence|].
  destruct (resolves_to_always cd (body o1) (body o2)) eqn:Ha;
    [rewrite callback_always by done; simpl; congruence|].
  rewrite callback_checked by done. simpl.
  rewrite check_done_flag.
  match goal with |- context [check_done ?c] =>
    destruct (check_done_frame c) as (-> & -> & _) end.
  simpl. rewrite Hd. by case_match.
Qed.

(** X13.  In a run that starts from a fresh result, [contact_count] is the
    number of contacts held in [contacts], all keys taken together. *)
Theorem contact_count_is_total_stored (req : CollisionRequest.t)
    (acm : option AllowedCollisionMatrix) (pairs : list (Object * Object)) :
  CollisionResult.contact_count (res_ (run_ pairs (fresh_data req acm)))
  = total_stored (res_ (run_ pairs (fresh_data req acm))).
Proof.
  apply (run_invariant
           (λ cd, CollisionResult.contact_count (res_ cd) = total_stored (res_ cd)));
    [|done].
  intros o1 o2 cd.
  apply (callback_preserves
           (λ r, CollisionResult.contact_count r = total_stored r)).
  - intros r c Hr. rewrite total_stored_push_back. simpl. by rewrite Hr.
  - done.
Qed.

Lemma pair_key_sorted (id1 id2 : string) :
  String.ltb (pair_key id1 id2).2 (pair_key id1 id2).1 = false.
Proof.
  unfold pair_key. destruct (String.ltb id1 id2) eqn:E; simpl; [|done].
  by apply ltb_asym.
Qed.

Lemma callback_grows (o1 o2 : Object) (cdata : CollisionData) :
  grows_at (key o1 o2) (res_ cdata) (res_ (data (callback o1 o2 cdata))).
Proof.
  apply (callback_preserves (λ r, grows_at (key o1 o2) (res_ cdata) r)).
  - intros r c. apply grows_at_push_back.
  - intros r. apply grows_at_set_collision.
  - apply grows_at_refl.
Qed.

Lemma run_keys (pairs : list (Object * Object)) (cdata : CollisionData)
    (K : list (string * string)) :
  (∀ k v, CollisionResult.contacts (res_ cdata) !! k = Some v → v ≠ [] ∧ k ∈ K) →
  ∀ k v, CollisionResult.contacts (res_ (run_ pairs cdata)) !! k = Some v →
         v ≠ [] ∧ k ∈ K ++ ((λ p, key p.1 p.2) <$> pairs).
Proof.
  revert cdata K. induction pairs as [|p pairs IH]; intros cdata K HK k v Hk.
  { simpl. rewrite app_nil_r. by apply HK. }
  rewrite run_cons in Hk. rewrite fmap_cons, cons_middle, app_assoc.
  eapply IH; [|exact Hk].
  intros k' v' Hk'.
  destruct (callback_grows p.1 p.2 cdata) as [Hother Hat].
  destruct (decide (k' = key p.1 p.2)) as [->|Hne].
  - split; [|apply elem_of_app; right; apply list_elem_of_singleton; done].
    destruct Hat as [Hsame | (w & Hw & Hnil)].
    + rewrite Hsame in Hk'. by apply HK in Hk' as [? _].
    + congruence.
  - rewrite Hother in Hk' by done. apply HK in Hk' as [? ?].
    split; [done|]. apply elem_of_app. by left.
Qed.

(** X14.  In a run that starts from a fresh result, every key present in
    [contacts] is the key of a pair that was handed to the callback, has
    its two names in order, and holds at least one contact. *)
Theorem stored_keys_of_pairs (req : CollisionRequest.t)
    (acm : option AllowedCollisionMatrix) (pairs : list (Object * Object))
    (k : string * string) (v : list Contact) :
  CollisionResult.contacts (res_ (run_ pairs (fresh_data req acm))) !! k = Some v →
  v ≠ []
  ∧ String.ltb k.2 k.1 = false
  ∧ ∃ p, p ∈ pairs ∧ k = key p.1 p.2.
Proof.
  intros Hk.
  destruct (run_keys pairs (fresh_data req acm) [] ) with (k := k) (v := v)
    as [Hnil Hin]; [|exact Hk|].
  { intros k' v' H'. simpl in H'. by rewrite lookup_empty in H'. }
  simpl in Hin. apply list_elem_of_fmap in Hin as (p & -> & Hp).
  split; [done|]. split; [apply pair_key_sorted|]. by exists p.
Qed.

(** X15.  When the request gives no room at all (contacts not wanted,
    [max_contacts] zero or [max_contacts_per_pair] zero), a run stores
    nothing: the map of contacts and the count end as they started. *)
Theorem request_without_room (pairs : list (Object * Object)) (cdata : CollisionData) :
  CollisionRequest.contacts (req_ cdata) = false
  ∨ CollisionRequest.max_contacts (req_ cdata) = 0
  ∨ CollisionRequest.max_contacts_per_pair (req_ cdata) = 0 →
  CollisionResult.contacts (res_ (run_ pairs cdata))
  = CollisionResult.contacts (res_ cdata)
  ∧ CollisionResult.contact_count (res_ (run_ pairs cdata))
    = CollisionResult.contact_count (res_ cdata).
Proof.
  intros Hroom.
  apply (run_invariant
           (λ cd, req_ cd = req_ cdata
                  ∧ CollisionResult.contacts (res_ cd)
                    = CollisionResult.contacts (res_ cdata)
                  ∧ CollisionResult.contact_count (res_ cd)
                    = CollisionResult.contact_count (res_ cdata))); [|done].
  intros o1 o2 cd (Hreq & Hm & Hn).
  assert (want_for cd o1 o2 = 0) as Hw.
  { rewrite want_contact_count_key, Hreq.
    destruct Hroom as [-> | [-> | ->]]; [done| |].
    - replace (_ <? 0) with false by (symmetry; apply Nat.ltb_ge; lia).
      by rewrite andb_false_r.
    - by case_match. }
  split.
  - by destruct (callback_step getUserData getCollisionGeometry collide o1 o2 cd)
      as (new & -> & _).
  - by destruct (callback_zero o1 o2 cd Hw) as [-> | ->].
Qed.

Lemma callback_silent (o1 o2 : Object) (cdata : CollisionData) :
  (∀ cap ex en, collide o1 o2 cap ex en = []) →
  CollisionResult.collision (res_ cdata) = false →
  data (callback o1 o2 cdata) = cdata.
Proof.
  intros Hsilent Hc.
  destruct (done_ cdata) eqn:Hd; [by rewrite callback_done|].
  destruct (resolves_to_always cdata (body o1) (body o2)) eqn:Ha;
    [by rewrite callback_always|].
  rewrite callback_checked by done. simpl.
  assert (∀ dcf want,
            (narrow_phase getUserData collide o1 o2 (body o1) (body o2) dcf want
               (res_ cdata)).1 = res_ cdata) as ->.
  { intros dcf want. unfold narrow_phase. rewrite !Hsilent. simpl.
    destruct dcf; [done|]. by destruct (0 <? want). }
  unfold check_done. simpl. rewrite Hc. by destruct cdata.
Qed.

(** X16.  If the narrow phase finds no contact for any of the pairs handed
    over, a run that starts from a fresh result ends as it started: no
    collision, nothing stored, not done. *)
Theorem run_without_contacts (req : CollisionRequest.t)
    (acm : option AllowedCollisionMatrix) (pairs : list (Object * Object)) :
  (∀ p cap ex en, p ∈ pairs → collide p.1 p.2 cap ex en = []) →
  run_ pairs (fresh_data req acm) = fresh_data req acm.
Proof.
  induction pairs as [|p pairs IH]; intros Hsilent; [done|].
  rewrite run_cons, callback_silent; [| |done].
  - apply IH. intros q cap ex en Hq. apply Hsilent. by apply list_elem_of_further.
  - intros cap ex en. apply Hsilent, list_elem_of_here.
Qed.

End Further.

(** ** Geometry *)

(** X17.  [createCollisionGeometry] on a static shape returns a null handle
    exactly when the type is not [PLANE]; for a plane the handle holds the
    four coefficients of the shape, its local bounding box has been computed
    and nothing is logged. *)
Theorem createCollisionGeometry_plane (shape : shapes.StaticShape) :
  ((createCollisionGeometry shape).1 = None ↔ shapes.type shape ≠ shapes.PLANE)
  ∧ (shapes.type shape = shapes.PLANE →
     createCollisionGeometry shape
     = (Some {| plane_a := shapes.a shape; plane_b := shapes.b shape;
                plane_c := shapes.c shape; plane_d := shapes.d shape;
                local_aabb_computed := true |}, [])).
Proof.
  unfold createCollisionGeometry.
  destruct (shapes.type shape) as [|n]; simpl.
  - split; [split; [discriminate|congruence]|done].
  - split; [split; [discriminate|done]|discriminate].
Qed.

(** X18.  [createCollisionGeometry] on a shape, with or without scale and
    padding, never returns a null handle, not even for a type it does not
    support: whenever it returns, the handle is a model whose local bounding
    box was computed last.  Without scaling, something is logged exactly for
    the types other than sphere, box, cylinder and mesh. *)
Theorem createCollisionGeometry_shape_not_null
    (scaleAndPadd : shapes.Shape → float → float → shapes.Shape)
    (shape : shapes.Shape) (scale padding : float)
    (g : option BVHModel) (log : list LogEntry) :
  (createCollisionGeometry_shape shape = Some (g, log) →
   (∃ m, g = Some (m ++ [BVH_computeLocalAABB]))
   ∧ (log ≠ [] ↔ ∃ n, shapes.shape_type shape = shapes.OTHER_SHAPE n))
  ∧ (createCollisionGeometry_scaled scaleAndPadd shape scale padding = Some (g, log) →
     ∃ m, g = Some (m ++ [BVH_computeLocalAABB])).
Proof.
  assert (∀ sh g' log', createCollisionGeometry_shape sh = Some (g', log') →
            (∃ m, g' = Some (m ++ [BVH_computeLocalAABB]))
            ∧ (log' ≠ [] ↔ ∃ n, shapes.shape_type sh = shapes.OTHER_SHAPE n)) as Hshape.
  { intros sh g' log' H. unfold createCollisionGeometry_shape in H.
    destruct sh as [r|sz|r l|mesh|n]; simpl in H.
    - injection H as <- <-. split; [eexists [_]; reflexivity|]. split; [done|by intros [? ?]].
    - injection H as <- <-. split; [eexists [_]; reflexivity|]. split; [done|by intros [? ?]].
    - injection H as <- <-. split; [eexists [_]; reflexivity|]. split; [done|by intros [? ?]].
    - destruct (_ && _); simpl in H.
      + destruct (read_tri_indices mesh) as [tris|]; simpl in H; [|done].
        destruct (read_points mesh) as [pts|]; simpl in H; [|done].
        injection H as <- <-. split; [eexists [_; _; _]; reflexivity|]. split; [done|by intros [? ?]].
      + injection H as <- <-. split; [by exists []|]. split; [done|by intros [? ?]].
    - injection H as <- <-. split; [by exists []|]. split; [by eexists|done]. }
  split; [apply Hshape|].
  unfold createCollisionGeometry_scaled. intros H.
  destruct (_ && _); by apply Hshape in H as [? _].
Qed.

Lemma uint_index_small (i : nat) (j : N) :
  (3 * N.of_nat i + j < 2 ^ 32)%N → uint_index i j = 3 * i + N.to_nat j.
Proof. intros H. unfold uint_index. rewrite N.mod_small by done. lia. Qed.

(** Reading [n] triples off an array of [3 * n] elements gives back the
    array. *)
Lemma read_triples {A : Type} (l : list A) (rd : nat → option (A * A * A)) (n : nat) :
  (∀ i, rd i = p1 ← l !! uint_index i 0; p2 ← l !! uint_index i 1;
               p3 ← l !! uint_index i 2; Some (p1, p2, p3)) →
  length l = 3 * n →
  (3 * N.of_nat n ≤ 2 ^ 32)%N →
  ∃ ts, mapM rd (seq 0 n) = Some ts ∧ length ts = n ∧ flatten3 ts = l.
Proof.
  intros Hrd Hlen Hbound.
  assert (∀ m, m ≤ n →
            ∃ ts, mapM rd (seq 0 m) = Some ts ∧ length ts = m
                  ∧ flatten3 ts = take (3 * m) l) as Hpre.
  { induction m as [|m IH]; intros Hm.
    { exists []. by rewrite Nat.mul_0_r, take_0. }
    destruct IH as (ts & Hts & Hl & Hfl); [lia|].
    destruct (lookup_lt_is_Some_2 l (3 * m)) as [p1 H1]; [lia|].
    destruct (lookup_lt_is_Some_2 l (3 * m + 1)) as [p2 H2]; [lia|].
    destruct (lookup_lt_is_Some_2 l (3 * m + 2)) as [p3 H3]; [lia|].
    assert (rd m = Some (p1, p2, p3)) as Hm3.
    { rewrite Hrd, !uint_index_small by lia.
      replace (3 * m + N.to_nat 0) with (3 * m) by lia.
      replace (3 * m + N.to_nat 1) with (3 * m + 1) by lia.
      replace (3 * m + N.to_nat 2) with (3 * m + 2) by lia.
      rewrite H1, H2, H3. done. }
    exists (ts ++ [(p1, p2, p3)]). split; [|split].
    - rewrite seq_S. simpl. apply mapM_Some_2, Forall2_app.
      + by apply mapM_Some_1.
      + by constructor.
    - rewrite length_app. simpl. lia.
    - assert (take (3 * S m) l = take (3 * m) l ++ [p1; p2; p3]) as ->.
      { replace (3 * S m) with (S (S (S (3 * m)))) by lia.
        rewrite (take_S_r l (S (S (3 * m))) p3)
          by (rewrite <- H3; f_equal; lia).
        rewrite (take_S_r l (S (3 * m)) p2)
          by (rewrite <- H2; f_equal; lia).
        rewrite (take_S_r l (3 * m) p1) by done.
        by rewrite <- !app_assoc. }
      unfold flatten3 in *. by rewrite bind_app, Hfl. }
  destruct (Hpre n) as (ts & Hts & Hl & Hfl); [done|].
  exists ts. split; [done|]. split; [done|].
  rewrite Hfl. apply take_ge. lia.
Qed.

(** X19.  For a mesh without vertices or without triangles,
    [createCollisionGeometry] reads neither array and returns an empty
    model.  For a mesh whose arrays hold three entries per vertex and per
    triangle, it builds one sub-model with [vertex_count] points and
    [triangle_count] triangles which, laid out flat, are the two arrays of
    the mesh: no entry is lost, repeated or moved. *)
Theorem createCollisionGeometry_mesh (mesh : shapes.Mesh) :
  (shapes.vertex_count mesh = 0 ∨ shapes.triangle_count mesh = 0 →
   createCollisionGeometry_shape (shapes.Shape_Mesh mesh)
   = Some (Some [BVH_computeLocalAABB], []))
  ∧ (0 < shapes.vertex_count mesh → 0 < shapes.triangle_count mesh →
     length (shapes.vertices mesh) = 3 * shapes.vertex_count mesh →
     length (shapes.triangles mesh) = 3 * shapes.triangle_count mesh →
     (3 * N.of_nat (shapes.vertex_count mesh) ≤ 2 ^ 32)%N →
     (3 * N.of_nat (shapes.triangle_count mesh) ≤ 2 ^ 32)%N →
     ∃ points tri_indices,
       createCollisionGeometry_shape (shapes.Shape_Mesh mesh)
       = Some (Some [beginModel; addSubModel points tri_indices; endModel;
                     BVH_computeLocalAABB], [])
       ∧ length points = shapes.vertex_count mesh
       ∧ length tri_indices = shapes.triangle_count mesh
       ∧ flatten3 points = shapes.vertices mesh
       ∧ flatten3 tri_indices = shapes.triangles mesh).
Proof.
  split.
  - intros Hz. unfold createCollisionGeometry_shape.
    assert ((0 <? shapes.vertex_count mesh) && (0 <? shapes.triangle_count mesh) = false)
      as ->; [|done].
    destruct Hz as [-> | ->]; [done|]. by rewrite andb_false_r.
  - intros Hv Ht Hlv Hlt Hbv Hbt.
    destruct (read_triples (shapes.triangles mesh) (read_triangle mesh)
                (shapes.triangle_count mesh)) as (tris & Htris & Hnt & Hft);
      [done..|].
    destruct (read_triples (shapes.vertices mesh) (read_point mesh)
                (shapes.vertex_count mesh)) as (pts & Hpts & Hnp & Hfp);
      [done..|].
    exists pts, tris. split; [|done].
    unfold createCollisionGeometry_shape, read_tri_indices, read_points.
    unfold fcl_Triangle, fcl_Vec3f.
    apply Nat.ltb_lt in Hv, Ht. rewrite Hv, Ht, Htris, Hpts. done.
Qed.

(** X20.  With scale 1 and padding 0 (of either sign),
    [createCollisionGeometry] does not scale: the result is that for the
    shape as it is, whatever [scaleAndPadd] does.  With a scale or a padding
    that is not a number, it always scales. *)
Theorem createCollisionGeometry_scaling_gate
    (scaleAndPadd : shapes.Shape → float → float → shapes.Shape)
    (shape : shapes.Shape) (scale padding : float) :
  (scale = 1%float → padding = 0%float ∨ padding = (-0)%float →
   createCollisionGeometry_scaled scaleAndPadd shape scale padding
   = createCollisionGeometry_shape shape)
  ∧ (scale = nan ∨ padding = nan →
     createCollisionGeometry_scaled scaleAndPadd shape scale padding
     = createCollisionGeometry_shape (scaleAndPadd shape scale padding)).
Proof.
  unfold createCollisionGeometry_scaled, shapes.clone. split.
  - intros -> [-> | ->].
    + by replace ((abs (1 - 1) <=? DBL_EPSILON) && (abs 0 <=? DBL_EPSILON))%float
        with true by (vm_compute; reflexivity).
    + by replace ((abs (1 - 1) <=? DBL_EPSILON) && (abs (-0) <=? DBL_EPSILON))%float
        with true by (vm_compute; reflexivity).
  - intros [-> | ->].
    + by replace (abs (nan - 1) <=? DBL_EPSILON)%float
        with false by (vm_compute; reflexivity).
    + replace (abs nan <=? DBL_EPSILON)%float with false by (vm_compute; reflexivity).
      by rewrite andb_false_r.
Qed.

(** ** The further properties on the concrete scene *)


Lemma decided_pair_stores_rejected_witness :
  (done_ Samples.start_conditional_reject = false
   ∧ resolves_to_always Samples.start_conditional_reject Scene.box_a Scene.box_b = false
   ∧ decider Samples.start_conditional_reject Scene.box_a Scene.box_b
     = Some Scene.reject_all
   ∧ length (rejected Scene.reject_all
               (fcl2contact Scene.userData
                  <$> Scene.collide3 Scene.box_a Scene.box_b INT_MAX true true)) = 3)
  ∧ extends_at (pair_key "box_a" "box_b")
      (take 2 (rejected Scene.reject_all
                 (fcl2contact Scene.userData
                    <$> Scene.collide3 Scene.box_a Scene.box_b INT_MAX true true)))
      (res_ Samples.start_conditional_reject)
      (res_ (data (Scene.callback3 Scene.box_a Scene.box_b Samples.start_conditional_reject)))
  ∧ CollisionResult.collision
      (res_ (data (Scene.callback3 Scene.box_a Scene.box_b Samples.start_conditional_reject)))
    = true.
Proof.
  split; [repeat split; vm_compute; reflexivity|].
  apply (decided_pair_stores_rejected Scene.userData Scene.geometry Scene.collide3
           Scene.box_a Scene.box_b Samples.start_conditional_reject Scene.reject_all);
    vm_compute; reflexivity.
Defined.

Lemma plain_pair_stores_first_witness :
  (done_ Scene.start_5_10 = false
   ∧ resolves_to_always Scene.start_5_10 Scene.box_a Scene.box_b = false
   ∧ decider Scene.start_5_10 Scene.box_a Scene.box_b = None
   ∧ 0 < want_contact_count (req_ Scene.start_5_10) (res_ Scene.start_5_10)
           Scene.box_a Scene.box_b)
  ∧ extends_at (pair_key "box_a" "box_b")
      (fcl2contact Scene.userData
         <$> take 10 (Scene.collide3 Scene.box_a Scene.box_b 10 false true))
      (res_ Scene.start_5_10)
      (res_ (data (Scene.callback3 Scene.box_a Scene.box_b Scene.start_5_10)))
  ∧ CollisionResult.collision
      (res_ (data (Scene.callback3 Scene.box_a Scene.box_b Scene.start_5_10)))
    = true.
Proof.
  split; [repeat split; vm_compute; try reflexivity; lia|].
  apply (plain_pair_stores_first Scene.userData Scene.geometry Scene.collide3
           Scene.box_a Scene.box_b Scene.start_5_10);
    vm_compute; try reflexivity; lia.
Defined.


Lemma overlap_test_only_witness :
  (done_ Scene.start_no_contacts = false
   ∧ resolves_to_always Scene.start_no_contacts Scene.box_a Scene.box_b = false
   ∧ decider Scene.start_no_contacts Scene.box_a Scene.box_b = None
   ∧ want_contact_count (req_ Scene.start_no_contacts) (res_ Scene.start_no_contacts)
       Scene.box_a Scene.box_b = 0)
  ∧ res_ (data (Scene.callback3 Scene.box_a Scene.box_b Scene.start_no_contacts))
    = CollisionResult.set_collision (res_ Scene.start_no_contacts).
Proof.
  split; [repeat split; vm_compute; reflexivity|].
  apply (overlap_test_only Scene.userData Scene.geometry Scene.collide3
           Scene.box_a Scene.box_b Scene.start_no_contacts); vm_compute; reflexivity.
Defined.

Lemma collision_needs_contact_witness :
  (CollisionResult.collision (res_ Scene.start_5_10) = false
   ∧ CollisionResult.collision
       (res_ (data (Scene.callback3 Scene.box_a Scene.box_b Scene.start_5_10))) = true)
  ∧ ∃ cap ex en, Scene.collide3 Scene.box_a Scene.box_b cap ex en ≠ [].
Proof.
  split; [split; vm_compute; reflexivity|].
  apply (collision_needs_contact Scene.userData Scene.geometry Scene.collide3
           Scene.box_a Scene.box_b Scene.start_5_10); vm_compute; reflexivity.
Defined.

Lemma entry_without_effect_witness :
  (table_always Samples.start_conditional_empty Scene.box_a Scene.box_b = false
   ∧ decider Samples.start_conditional_empty Scene.box_a Scene.box_b = None)
  ∧ res_ (data (Scene.callback3 Scene.box_a Scene.box_b Samples.start_conditional_empty))
    = res_ (data (Scene.callback3 Scene.box_a Scene.box_b
                    (with_acm Samples.start_conditional_empty None)))
  ∧ done_ (data (Scene.callback3 Scene.box_a Scene.box_b Samples.start_conditional_empty))
    = done_ (data (Scene.callback3 Scene.box_a Scene.box_b
                     (with_acm Samples.start_conditional_empty None))).
Proof.
  split; [split; vm_compute; reflexivity|].
  apply (entry_without_effect Scene.userData Scene.geometry Scene.collide3
           Scene.box_a Scene.box_b Samples.start_conditional_empty);
    vm_compute; reflexivity.
Defined.

Lemma run_after_done_witness :
  done_ Scene.after_three_pairs = true
  ∧ Scene.run3 Scene.three_pairs Scene.after_three_pairs = Scene.after_three_pairs.
Proof.
  split; [vm_compute; reflexivity|].
  apply (run_after_done Scene.userData Scene.geometry Scene.collide3
           Scene.three_pairs Scene.after_three_pairs).
  vm_compute; reflexivity.
Defined.

Lemma run_monotone_witness :
  (CollisionResult.collision (res_ Scene.after_three_pairs) = true
   ∧ done_ Scene.after_three_pairs = true)
  ∧ CollisionResult.collision
      (res_ (Scene.run3 [(Scene.box_a, Scene.box_b)] Scene.after_three_pairs)) = true
  ∧ done_ (Scene.run3 [(Scene.box_a, Scene.box_b)] Scene.after_three_pairs) = true.
Proof.
  split; [split; vm_compute; reflexivity|].
  destruct (run_monotone Scene.userData Scene.geometry Scene.collide3
              [(Scene.box_a, Scene.box_b)] Scene.after_three_pairs)
    as (Hc & Hd & _).
  split; [apply Hc|apply Hd]; vm_compute; reflexivity.
Defined.

Lemma stored_keys_of_pairs_witness :
  CollisionResult.contacts (res_ (Scene.run3 Scene.three_pairs Scene.start_5_10))
    !! ("box_a", "box_c")
  = Some (stored (res_ Scene.after_three_pairs) ("box_a", "box_c"))
  ∧ stored (res_ Scene.after_three_pairs) ("box_a", "box_c") ≠ []
  ∧ String.ltb "box_c" "box_a" = false
  ∧ ∃ p, p ∈ Scene.three_pairs
         ∧ ("box_a", "box_c")
           = pair_key (getID (Scene.userData (Scene.geometry p.1)))
                      (getID (Scene.userData (Scene.geometry p.2))).
Proof.
  split; [vm_compute; reflexivity|].
  apply (stored_keys_of_pairs Scene.userData Scene.geometry Scene.collide3
           (Scene.request true 5 10) None Scene.three_pairs ("box_a", "box_c")
           (stored (res_ Scene.after_three_pairs) ("box_a", "box_c"))).
  vm_compute; reflexivity.
Defined.

Lemma request_without_room_witness :
  CollisionRequest.contacts (req_ Scene.start_no_contacts) = false
  ∧ CollisionResult.contacts (res_ (Scene.run3 Scene.three_pairs Scene.start_no_contacts))
    = CollisionResult.contacts (res_ Scene.start_no_contacts)
  ∧ CollisionResult.contact_count
      (res_ (Scene.run3 Scene.three_pairs Scene.start_no_contacts))
    = CollisionResult.contact_count (res_ Scene.start_no_contacts).
Proof.
  split; [vm_compute; reflexivity|].
  apply (request_without_room Scene.userData Scene.geometry Scene.collide3
           Scene.three_pairs Scene.start_no_contacts).
  left. vm_compute; reflexivity.
Defined.

Lemma run_without_contacts_witness :
  Samples.run0 Scene.three_pairs Scene.start_5_10 = Scene.start_5_10.
Proof.
  apply (run_without_contacts Scene.userData Scene.geometry Scene.collide0
           (Scene.request true 5 10) None Scene.three_pairs).
  intros p cap ex en _. reflexivity.
Defined.

Lemma createCollisionGeometry_plane_witness :
  shapes.type Samples.plane_z = shapes.PLANE
  ∧ createCollisionGeometry Samples.plane_z
    = (Some {| plane_a := 0; plane_b := 0; plane_c := 1; plane_d := 0;
               local_aabb_computed := true |}, []).
Proof.
  split; [reflexivity|].
  apply (proj2 (createCollisionGeometry_plane Samples.plane_z)). reflexivity.
Defined.

Lemma createCollisionGeometry_shape_not_null_witness :
  (createCollisionGeometry_shape (shapes.Shape_other 7)
   = Some (Some [BVH_computeLocalAABB], [ROS_FATAL_unsupported_shape 7])
   ∧ createCollisionGeometry_scaled Samples.grow_sphere (shapes.Shape_other 7) 2 0
     = Some (Some [BVH_computeLocalAABB], [ROS_FATAL_unsupported_shape 7]))
  ∧ (∃ m, Some [BVH_computeLocalAABB] = Some (m ++ [BVH_computeLocalAABB]))
  ∧ ([ROS_FATAL_unsupported_shape 7] ≠ []
     ↔ ∃ n, shapes.shape_type (shapes.Shape_other 7) = shapes.OTHER_SHAPE n).
Proof.
  split; [split; vm_compute; reflexivity|].
  apply (proj1 (createCollisionGeometry_shape_not_null Samples.grow_sphere
                  (shapes.Shape_other 7) 2 0 (Some [BVH_computeLocalAABB])
                  [ROS_FATAL_unsupported_shape 7])).
  vm_compute; reflexivity.
Defined.

Lemma createCollisionGeometry_mesh_witness :
  (0 < shapes.vertex_count Samples.triangle_mesh
   ∧ 0 < shapes.triangle_count Samples.triangle_mesh
   ∧ length (shapes.vertices Samples.triangle_mesh)
     = 3 * shapes.vertex_count Samples.triangle_mesh
   ∧ length (shapes.triangles Samples.triangle_mesh)
     = 3 * shapes.triangle_count Samples.triangle_mesh)
  ∧ ∃ points tri_indices,
      createCollisionGeometry_shape (shapes.Shape_Mesh Samples.triangle_mesh)
      = Some (Some [beginModel; addSubModel points tri_indices; endModel;
                    BVH_computeLocalAABB], [])
      ∧ length points = shapes.vertex_count Samples.triangle_mesh
      ∧ length tri_indices = shapes.triangle_count Samples.triangle_mesh
      ∧ flatten3 points = shapes.vertices Samples.triangle_mesh
      ∧ flatten3 tri_indices = shapes.triangles Samples.triangle_mesh.
Proof.
  split; [repeat split; simpl; lia|].
  apply (proj2 (createCollisionGeometry_mesh Samples.triangle_mesh));
    simpl; lia.
Defined.

Lemma createCollisionGeometry_scaling_gate_witness :
  createCollisionGeometry_scaled Samples.grow_sphere (shapes.Shape_Sphere 2) 1 0
  = createCollisionGeometry_shape (shapes.Shape_Sphere 2)
  ∧ createCollisionGeometry_scaled Samples.grow_sphere (shapes.Shape_Sphere 2) nan 0
    = createCollisionGeometry_shape (Samples.grow_sphere (shapes.Shape_Sphere 2) nan 0).
Proof.
  split.
  - apply (proj1 (createCollisionGeometry_scaling_gate Samples.grow_sphere
                    (shapes.Shape_Sphere 2) 1 0)); [reflexivity|left; reflexivity].
  - apply (proj2 (createCollisionGeometry_scaling_gate Samples.grow_sphere
                    (shapes.Shape_Sphere 2) nan 0)). left; reflexivity.
Defined.
